(** * servicenow-dev-mcp: SDK command wrappers and Fluent code generators

    A shallow embedding of [src/tools/sdk-commands.ts] and of the code
    generator module ([idKey], [generateColumnCode] and the seven
    [snc_generate_*] handlers), with the properties of the specification
    stated over it. *)

From Stdlib Require Import List NArith ZArith Bool Lia Arith Sorting.Sorted.
From Stdlib Require Import Strings.String Strings.Ascii Numbers.DecimalString.
Import ListNotations.
Open Scope list_scope.

(** ** JavaScript strings and the primitives the two modules use *)

Module JS.

(** A JavaScript string is a sequence of UTF-16 code units. *)
Definition codeunit := N.
Definition jsstring := list codeunit.

(** A source literal: every character of the literals in the two modules is
    ASCII, so a character is its own code unit. *)
Definition js (s : string) : jsstring :=
  map N_of_ascii (list_ascii_of_string s).
Arguments js s%_string.

(** The line feed written [\n] in the template literals. *)
Definition LF : jsstring := [10%N].

(** ToBoolean on a string: only the empty string is falsy. *)
Definition truthy (s : jsstring) : bool :=
  match s with [] => false | _ :: _ => true end.

(** ToBoolean on a string that may be [undefined]. *)
Definition truthy_opt (o : option jsstring) : bool :=
  match o with Some s => truthy s | None => false end.

(** [a || b] on strings. *)
Definition or_else (a b : jsstring) : jsstring :=
  if truthy a then a else b.

(** [a || b] where [a] may be [undefined]. *)
Definition opt_or_else (a : option jsstring) (b : jsstring) : jsstring :=
  match a with Some s => or_else s b | None => b end.

(** [Array.prototype.join]. *)
Fixpoint join (sep : jsstring) (l : list jsstring) : jsstring :=
  match l with
  | [] => []
  | [x] => x
  | x :: rest => x ++ sep ++ join sep rest
  end.

(** [Array.prototype.map] with the index argument, counted from [i]. *)
Fixpoint mapi_from {A B} (i : nat) (f : A -> nat -> B) (l : list A) : list B :=
  match l with
  | [] => []
  | x :: rest => f x i :: mapi_from (S i) f rest
  end.

Definition mapi {A B} (f : A -> nat -> B) (l : list A) : list B :=
  mapi_from 0 f l.

(** An array index interpolated in a template literal: its decimal digits. *)
Definition natToString (n : nat) : jsstring :=
  js (NilEmpty.string_of_uint (Nat.to_uint n)).

(** A boolean interpolated in a template literal. *)
Definition boolToString (b : bool) : jsstring :=
  if b then js "true" else js "false".

(** White space and line terminators, the code units [trim] strips. *)
Definition isTrimmable (c : codeunit) : bool :=
  ((9 <=? c) && (c <=? 13) || (c =? 32) || (c =? 160) || (c =? 5760)
   || (8192 <=? c) && (c <=? 8202) || (c =? 8232) || (c =? 8233)
   || (c =? 8239) || (c =? 8287) || (c =? 12288) || (c =? 65279))%N.

Fixpoint trimStart (s : jsstring) : jsstring :=
  match s with
  | c :: rest => if isTrimmable c then trimStart rest else s
  | [] => []
  end.

Definition trimEnd (s : jsstring) : jsstring := rev (trimStart (rev s)).

(** [String.prototype.trim]. *)
Definition trim (s : jsstring) : jsstring := trimEnd (trimStart s).

(** The character class [[a-zA-Z0-9_]] of the regular expressions. *)
Definition isWordChar (c : codeunit) : bool :=
  ((97 <=? c) && (c <=? 122) || (65 <=? c) && (c <=? 90)
   || (48 <=? c) && (c <=? 57) || (c =? 95))%N.

(** [s.replace(/[^a-zA-Z0-9_]/g, "_")]: the expression has no [u] flag, so
    it works code unit by code unit. *)
Definition replaceNonWord (s : jsstring) : jsstring :=
  map (fun c => if isWordChar c then c else 95%N) s.

(** [s.replace(/\./g, "_")]. *)
Definition replaceDots (s : jsstring) : jsstring :=
  map (fun c => if (c =? 46)%N then 95%N else c) s.

(** [String.prototype.toLowerCase] on the ASCII code units: the letters A-Z
    move to a-z and every other ASCII code unit stays.  The generators only
    call it on the result of [replaceNonWord], which is ASCII throughout
    (lemma [replaceNonWord_word]). *)
Definition lowerUnit (c : codeunit) : codeunit :=
  if ((65 <=? c) && (c <=? 90))%N then (c + 32)%N else c.

Definition toLowerCase (s : jsstring) : jsstring := map lowerUnit s.

(** [name.split(".").pop()]: the code units after the last full stop, the
    whole string when there is none. *)
Fixpoint lastSegment_from (acc s : jsstring) : jsstring :=
  match s with
  | [] => acc
  | c :: rest =>
      if (c =? 46)%N then lastSegment_from [] rest
      else lastSegment_from (acc ++ [c]) rest
  end.

Definition lastSegment (s : jsstring) : jsstring := lastSegment_from [] s.

(** Strict equality of strings. *)
Definition eqb (a b : jsstring) : bool :=
  if list_eq_dec N.eq_dec a b then true else false.

End JS.
Import JS.

(** ** The identifier normalizer *)

(** [idKey] of the generator module. *)
Definition idKey (name : jsstring) : jsstring :=
  toLowerCase (replaceNonWord name).

(** The code units an identifier is made of after normalization. *)
Definition isKeyChar (c : codeunit) : bool :=
  ((97 <=? c) && (c <=? 122) || (48 <=? c) && (c <=? 57) || (c =? 95))%N.

(** ** The SDK command wrappers ([src/tools/sdk-commands.ts]) *)

(** [process.env] as a lookup, and the update of one variable. *)
Definition Env := jsstring -> option jsstring.

Definition env_set (k v : jsstring) (e : Env) : Env :=
  fun k' => if JS.eqb k' k then Some v else e k'.

(** The part of the Node [process] object the module reads. *)
Record Process := {
  process_env : Env;
  process_cwd : jsstring
}.

(** The options object handed to [exec]. *)
Record ExecOptions := {
  cwd : jsstring;
  timeout : N;
  env : Env
}.

(** What the promisified [exec] resolves with. *)
Record ExecOutput := {
  stdout : jsstring;
  stderr : jsstring
}.

(** What the [catch] clause can receive: an [Error], whose [stderr]
    property is there when [exec] rejected after running the command and
    [undefined] otherwise, or a value that is no [Error], seen through
    [String(error)]. *)
Inductive Thrown :=
| ErrorObject (error_stderr : option jsstring) (message : jsstring)
| OtherValue (asString : jsstring).

Inductive ExecOutcome :=
| Resolved (out : ExecOutput)
| Rejected (error : Thrown).

(** The response envelope of a tool: [content] holds the [text] of each
    [{ type: "text", text }] item, [isError] is [None] where the handler
    leaves the property out. *)
Record ToolResult := {
  content : list jsstring;
  isError : option bool
}.

(** An [async] handler: it returns, or awaits [execAsync] and goes on with
    what came back. *)
Inductive Async (A : Type) : Type :=
| Return (a : A)
| Await (command : jsstring) (options : ExecOptions)
        (k : ExecOutcome -> Async A).
Arguments Return {A} a.
Arguments Await {A} command options k.

(** The operating system seen from a handler: what each spawned command
    line gives back. *)
Definition World := jsstring -> ExecOptions -> ExecOutcome.

Fixpoint run {A} (w : World) (t : Async A) : A :=
  match t with
  | Return a => a
  | Await c o k => run w (k (w c o))
  end.

(** The command lines a handler spawns, in order. *)
Fixpoint spawned {A} (w : World) (t : Async A) : list jsstring :=
  match t with
  | Return _ => []
  | Await c o k => c :: spawned w (k (w c o))
  end.

(** [DEFAULT_AUTH]. *)
Definition DEFAULT_AUTH (process : Process) : jsstring :=
  opt_or_else (process_env process (js "SNC_DEFAULT_AUTH_ALIAS"))
              (js "dev252193").

(** [runSdk]. *)
Definition runSdk (process : Process)
    (command : jsstring) (cwd : option jsstring) : Async ToolResult :=
  Await command
    {| cwd := opt_or_else cwd (process_cwd process);
       timeout := 120000;
       env := env_set (js "FORCE_COLOR") (js "0") (process_env process) |}
    (fun outcome =>
       match outcome with
       | Resolved out =>
           let output :=
             or_else (stdout out)
               (or_else (stderr out) (js "Command completed successfully.")) in
           Return {| content := [trim output]; isError := None |}
       | Rejected error =>
           let msg :=
             match error with
             | ErrorObject error_stderr message =>
                 opt_or_else error_stderr message
             | OtherValue s => s
             end in
           Return {| content := [js "Error: " ++ msg]; isError := Some true |}
       end).

(** The [type] enum of [snc_auth_add] and the [template] enum of [snc_init],
    with the string each value is. *)
Inductive AuthType := basic | oauth.

Definition AuthType_string (t : AuthType) : jsstring :=
  match t with basic => js "basic" | oauth => js "oauth" end.

Inductive Template :=
| base | configuration | typescript_basic | typescript_react
| typescript_vue | javascript_basic | javascript_react
| partial_typescript_react | partial_typescript_vue
| partial_javascript_react.

Definition Template_string (t : Template) : jsstring :=
  match t with
  | base => js "base"
  | configuration => js "configuration"
  | typescript_basic => js "typescript.basic"
  | typescript_react => js "typescript.react"
  | typescript_vue => js "typescript.vue"
  | javascript_basic => js "javascript.basic"
  | javascript_react => js "javascript.react"
  | partial_typescript_react => js "partial.typescript.react"
  | partial_typescript_vue => js "partial.typescript.vue"
  | partial_javascript_react => js "partial.javascript.react"
  end.

(** The validated arguments of the tools; an [.optional()] field is an
    [option], a [.default(...)] field has its value. *)
Record AuthAddArgs := {
  add_instance : jsstring;
  add_alias : option jsstring;
  add_type : AuthType
}.

Record InitArgs := {
  init_appName : jsstring;
  init_scopeName : jsstring;
  init_template : Template;
  init_packageName : option jsstring;
  init_auth : option jsstring;
  init_directory : option jsstring
}.

(** [snc_install] and [snc_dependencies] take the same two fields. *)
Record DeployArgs := {
  deploy_directory : option jsstring;
  deploy_auth : option jsstring
}.

Record TransformArgs := {
  transform_from : option jsstring;
  transform_directory : option jsstring;
  transform_auth : option jsstring
}.

(** [if (x) parts.push(item)] on an optional string [x]. *)
Definition push_if (x : option jsstring) (item : jsstring -> jsstring)
    (parts : list jsstring) : list jsstring :=
  match x with
  | Some v => if truthy v then parts ++ [item v] else parts
  | None => parts
  end.

Definition snc_auth_list (process : Process) : Async ToolResult :=
  runSdk process (js "npx now-sdk auth --list") None.

Definition snc_auth_add (args : AuthAddArgs) : Async ToolResult :=
  let a := opt_or_else (add_alias args) (add_instance args) in
  let cmd := js "npx now-sdk auth --add " ++ add_instance args
             ++ js " --type " ++ AuthType_string (add_type args)
             ++ js " --alias " ++ a in
  Return {|
    content :=
      [js "This command requires interactive input (username/password). Run it in your terminal:"
       ++ LF ++ LF ++ cmd ++ LF ++ LF ++ js "Then set as default:" ++ LF
       ++ js "npx now-sdk auth --use " ++ a];
    isError := None |}.

Definition snc_auth_use (process : Process) (alias : jsstring)
    : Async ToolResult :=
  runSdk process (js "npx now-sdk auth --use " ++ alias) None.

Definition snc_init (process : Process) (args : InitArgs)
    : Async ToolResult :=
  let parts :=
    [js "npx now-sdk init";
     js "--appName " ++ [34%N] ++ init_appName args ++ [34%N];
     js "--scopeName " ++ [34%N] ++ init_scopeName args ++ [34%N];
     js "--template " ++ Template_string (init_template args)] in
  let parts :=
    push_if (init_packageName args)
      (fun v => js "--packageName " ++ [34%N] ++ v ++ [34%N]) parts in
  let parts :=
    parts ++ [js "--auth "
              ++ opt_or_else (init_auth args) (DEFAULT_AUTH process)] in
  runSdk process (join (js " ") parts) (init_directory args).

Definition snc_build (process : Process) (directory : option jsstring)
    : Async ToolResult :=
  runSdk process (js "npx now-sdk build") directory.

Definition snc_install (process : Process) (args : DeployArgs)
    : Async ToolResult :=
  let parts := [js "npx now-sdk install"] in
  let parts := push_if (deploy_auth args) (fun v => js "--auth " ++ v) parts in
  runSdk process (join (js " ") parts) (deploy_directory args).

Definition snc_dependencies (process : Process) (args : DeployArgs)
    : Async ToolResult :=
  let parts := [js "npx now-sdk dependencies"] in
  let parts := push_if (deploy_auth args) (fun v => js "--auth " ++ v) parts in
  runSdk process (join (js " ") parts) (deploy_directory args).

Definition snc_transform (process : Process) (args : TransformArgs)
    : Async ToolResult :=
  let parts := [js "npx now-sdk transform"] in
  let parts :=
    push_if (transform_from args)
      (fun v => js "--from " ++ [34%N] ++ v ++ [34%N]) parts in
  let parts :=
    push_if (transform_auth args) (fun v => js "--auth " ++ v) parts in
  runSdk process (join (js " ") parts) (transform_directory args).

Definition snc_clean (process : Process) (directory : option jsstring)
    : Async ToolResult :=
  runSdk process (js "npx now-sdk clean") directory.

(** ** The Fluent code generators *)

(** A JavaScript number as far as the generators use one: [z.number()]
    fields are only interpolated in a template literal and tested for
    truthiness ([0], [-0] and [NaN] are falsy). *)
Class JsNumber (number : Type) := {
  numberToString : number -> jsstring;
  numberToBoolean : number -> bool
}.

(** The safe integers, of magnitude at most 2^53 - 1: a JavaScript number
    holds each of them exactly and prints it in plain decimal, and zero is
    the only falsy one. *)
Record SafeInteger := {
  safe_value : Z;
  safe_bound : (Z.abs safe_value <=? 9007199254740991)%Z = true
}.

#[export] Instance SafeInteger_JsNumber : JsNumber SafeInteger := {|
  numberToString := fun n => js (NilEmpty.string_of_int (Z.to_int (safe_value n)));
  numberToBoolean := fun n => negb (safe_value n =? 0)%Z
|}.

(** [if (x) code += chunk] on an optional string [x]. *)
Definition append_if (x : option jsstring) (chunk : jsstring -> jsstring)
    (code : jsstring) : jsstring :=
  match x with
  | Some v => if truthy v then code ++ chunk v else code
  | None => code
  end.

(** A [z.record(z.string(), z.string())] value, as [Object.entries] lists
    it: the keys are distinct and come in the object's iteration order. *)
Definition StringRecord := list (jsstring * jsstring).

(** Reading the property [key] of such an object. *)
Fixpoint prop (key : jsstring) (o : StringRecord) : option jsstring :=
  match o with
  | [] => None
  | (k, v) :: rest => if JS.eqb k key then Some v else prop key rest
  end.

Inductive ColumnType :=
| col_string | col_integer | col_boolean | col_date | col_datetime
| col_decimal | col_reference | col_choice.

Module ColumnSpec.
Record t (number : Type) := {
  name : jsstring;
  type : ColumnType;
  label : jsstring;
  mandatory : option bool;
  maxLength : option number;
  referenceTable : option jsstring;
  choices : option StringRecord;
  defaultValue : option jsstring
}.
Arguments name {number} _.
Arguments type {number} _.
Arguments label {number} _.
Arguments mandatory {number} _.
Arguments maxLength {number} _.
Arguments referenceTable {number} _.
Arguments choices {number} _.
Arguments defaultValue {number} _.
End ColumnSpec.

(** [columnTypeImport], on the values the schema lets through. *)
Definition columnTypeImport (type : ColumnType) : jsstring :=
  match type with
  | col_string => js "StringColumn"
  | col_integer => js "IntegerColumn"
  | col_boolean => js "BooleanColumn"
  | col_date => js "DateColumn"
  | col_datetime => js "DateTimeColumn"
  | col_decimal => js "DecimalColumn"
  | col_reference => js "ReferenceColumn"
  | col_choice => js "ChoiceColumn"
  end.

(** The array mapped from [Object.entries(col.choices)] in
    [generateColumnCode], before it is joined. *)
Definition choiceEntries (indent : jsstring) (choices : StringRecord)
    : list jsstring :=
  mapi (fun kv i =>
          let '(k, v) := kv in
          indent ++ js "            " ++ k ++ js ": { label: '" ++ v
              ++ js "', sequence: " ++ natToString (i + 1) ++ js " }")
       choices.

(** The [props] array of [generateColumnCode] once every push is done. *)
Definition columnProps {number} `{JsNumber number}
    (col : ColumnSpec.t number) (indent : jsstring) : list jsstring :=
  let props := [] in
  let props := props ++ [js "label: '" ++ ColumnSpec.label col ++ js "'"] in
  let props :=
    match ColumnSpec.mandatory col with
    | Some true => props ++ [js "mandatory: true"]
    | _ => props
    end in
  let props :=
    match ColumnSpec.maxLength col with
    | Some n =>
        if numberToBoolean n then props ++ [js "maxLength: "
            ++ numberToString n] else props
    | None => props
    end in
  let props :=
    match ColumnSpec.defaultValue col with
    | Some d => props ++ [js "default: '" ++ d ++ js "'"]
    | None => props
    end in
  let props :=
    match ColumnSpec.type col, ColumnSpec.referenceTable col with
    | col_reference, Some r =>
        if truthy r then props ++ [js "referenceTable: '" ++ r
            ++ js "'"] else props
    | _, _ => props
    end in
  let props :=
    match ColumnSpec.type col, ColumnSpec.choices col with
    | col_choice, Some choices =>
        let entries := join (js "," ++ LF) (choiceEntries indent choices) in
        props ++ [js "choices: {" ++ LF ++ entries ++ js "," ++ LF ++ indent
            ++ js "        }"]
    | _, _ => props
    end in
  props.

(** [generateColumnCode]. *)
Definition generateColumnCode {number} `{JsNumber number}
    (col : ColumnSpec.t number) (indent : jsstring) : jsstring :=
  let props := columnProps col indent in
  let typeFn := columnTypeImport (ColumnSpec.type col) in
  let propsStr := join (js "," ++ LF ++ indent ++ js "            ") props in
  indent ++ js "        " ++ ColumnSpec.name col ++ js ": " ++ typeFn
      ++ js "({" ++ LF ++ indent ++ js "            " ++ propsStr ++ js ","
      ++ LF ++ indent ++ js "        })".

(** A [Set] of strings in insertion order, and [Set.prototype.add]. *)
Definition set_add (x : jsstring) (s : list jsstring) : list jsstring :=
  if existsb (JS.eqb x) s then s else s ++ [x].

(** The order of the default [Array.prototype.sort]: strings compared code
    unit by code unit. *)
Fixpoint string_ltb (a b : jsstring) : bool :=
  match a, b with
  | [], [] => false
  | [], _ :: _ => true
  | _ :: _, [] => false
  | x :: a', y :: b' =>
      if (x <? y)%N then true
      else if (y <? x)%N then false
      else string_ltb a' b'
  end.

Fixpoint sort_insert (x : jsstring) (l : list jsstring) : list jsstring :=
  match l with
  | [] => [x]
  | y :: rest => if string_ltb y x then y :: sort_insert x rest else x :: l
  end.

(** [Array.prototype.sort] without a comparator.  It is applied to the
    members of a [Set], which are distinct, so the sorted array does not
    depend on the sorting algorithm. *)
Definition sort (l : list jsstring) : list jsstring :=
  fold_right sort_insert [] l.

Module TableRequest.
Record t (number : Type) := {
  tableName : jsstring;
  label : jsstring;
  columns : list (ColumnSpec.t number);
  displayColumn : option jsstring
}.
Arguments tableName {number} _.
Arguments label {number} _.
Arguments columns {number} _.
Arguments displayColumn {number} _.
End TableRequest.

(** The exported variable name of the table generator. *)
Definition table_varName (tableName : jsstring) : jsstring :=
  replaceDots tableName.

(** The text the [snc_generate_table] handler builds in [code]. *)
Definition snc_generate_table_code {number} `{JsNumber number}
    (req : TableRequest.t number) : jsstring :=
  let imports := [js "Table"] in
  let imports :=
    fold_left (fun imports col =>
                 set_add (columnTypeImport (ColumnSpec.type col)) imports)
              (TableRequest.columns req) imports in
  let importList := join (js ", ") (sort imports) in
  let colCode :=
    join (js "," ++ LF)
         (map (fun c => generateColumnCode c []) (TableRequest.columns req)) in
  let varName := table_varName (TableRequest.tableName req) in
  let code := js "import { " ++ importList
      ++ js " } from '@servicenow/sdk/core'" ++ LF ++ LF in
  let code := code ++ js "export const " ++ varName ++ js " = Table({" ++ LF in
  let code := code ++ js "    name: '" ++ TableRequest.tableName req
      ++ js "'," ++ LF in
  let code := code ++ js "    label: '" ++ TableRequest.label req ++ js "',"
      ++ LF in
  let code := code ++ js "    schema: {" ++ LF ++ colCode ++ js "," ++ LF
      ++ js "    }," ++ LF in
  let code :=
    append_if (TableRequest.displayColumn req)
      (fun d => js "    display: '" ++ d ++ js "'," ++ LF)
      code in
  let code := code ++ js "})" ++ LF in
  code.

Definition snc_generate_table {number} `{JsNumber number}
    (req : TableRequest.t number) : Async ToolResult :=
  Return {| content := [snc_generate_table_code req]; isError := None |}.

Inductive TriggerType := created | updated | createdOrUpdated.

Definition TriggerType_string (t : TriggerType) : jsstring :=
  match t with
  | created => js "created"
  | updated => js "updated"
  | createdOrUpdated => js "createdOrUpdated"
  end.

Inductive ActionType := log | updateRecord | sendEmail | lookUpRecord.

Definition ActionType_string (t : ActionType) : jsstring :=
  match t with
  | log => js "log"
  | updateRecord => js "updateRecord"
  | sendEmail => js "sendEmail"
  | lookUpRecord => js "lookUpRecord"
  end.

Module ActionSpec.
Record t := {
  type : ActionType;
  config : StringRecord
}.
End ActionSpec.

Module FlowRequest.
Record t := {
  name : jsstring;
  description : jsstring;
  triggerType : TriggerType;
  table : jsstring;
  condition : option jsstring;
  actions : list ActionSpec.t
}.
End FlowRequest.

(** [actId] of the action loop. *)
Definition flow_actId (flowId : jsstring) (act : ActionSpec.t) : jsstring :=
  idKey (flowId ++ js "_" ++ ActionType_string (ActionSpec.type act)).

(** One turn of the action loop of [snc_generate_flow]: [code] after the
    [switch] on [act.type]. *)
Definition flow_action_step (flowId table : jsstring)
    (code : jsstring) (act : ActionSpec.t) : jsstring :=
  let actId := flow_actId flowId act in
  let config := ActionSpec.config act in
  match ActionSpec.type act with
  | log =>
      let code := code ++ js "        wfa.action(" ++ LF in
      let code := code ++ js "            action.core.log," ++ LF in
      let code := code ++ js "            { $id: Now.ID['" ++ actId
          ++ js "'] }," ++ LF in
      let code := code ++ js "            {" ++ LF in
      let code := code ++ js "                log_level: '"
          ++ opt_or_else (prop (js "level") config) (js "info") ++ js "',"
          ++ LF in
      let code := code ++ js "                log_message: '"
          ++ opt_or_else (prop (js "message") config) (js "Flow executed")
          ++ js "'," ++ LF in
      let code := code ++ js "            }" ++ LF in
      let code := code ++ js "        )" ++ LF ++ LF in
      code
  | updateRecord =>
      let code := code ++ js "        wfa.action(" ++ LF in
      let code := code ++ js "            action.core.updateRecord," ++ LF in
      let code := code ++ js "            { $id: Now.ID['" ++ actId
          ++ js "'] }," ++ LF in
      let code := code ++ js "            {" ++ LF in
      let code := code ++ js "                table_name: '"
          ++ opt_or_else (prop (js "table") config) table ++ js "'," ++ LF in
      let code := code
          ++ js "                // @ts-ignore - sys_id is a system column"
          ++ LF in
      let code := code
          ++ js "                record: wfa.dataPill(params.trigger.current.sys_id, 'reference'),"
          ++ LF in
      let code := code ++ js "                values: {" ++ LF in
      let code :=
        fold_left (fun code kv =>
                     let '(k, v) := kv in
                     if negb (JS.eqb k (js "table"))
                     then code ++ js "                    " ++ k ++ js ": '"
                         ++ v ++ js "'," ++ LF
                     else code)
                  config code in
      let code := code ++ js "                }," ++ LF in
      let code := code ++ js "            }" ++ LF in
      let code := code ++ js "        )" ++ LF ++ LF in
      code
  | sendEmail =>
      let code := code ++ js "        wfa.action(" ++ LF in
      let code := code ++ js "            action.core.sendEmail," ++ LF in
      let code := code ++ js "            { $id: Now.ID['" ++ actId
          ++ js "'] }," ++ LF in
      let code := code ++ js "            {" ++ LF in
      let code := code ++ js "                table_name: '" ++ table
          ++ js "'," ++ LF in
      let code := code ++ js "                watermark_email: true," ++ LF in
      let code := code ++ js "                ah_subject: '"
          ++ opt_or_else (prop (js "subject") config) (js "Notification")
          ++ js "'," ++ LF in
      let code := code ++ js "                ah_body: '"
          ++ opt_or_else (prop (js "body") config) [] ++ js "'," ++ LF in
      let code := code
          ++ js "                // @ts-ignore - sys_id is a system column"
          ++ LF in
      let code := code
          ++ js "                record: wfa.dataPill(params.trigger.current.sys_id, 'reference'),"
          ++ LF in
      let code := code ++ js "                ah_to: '"
          ++ opt_or_else (prop (js "to") config) [] ++ js "'," ++ LF in
      let code := code ++ js "            }" ++ LF in
      let code := code ++ js "        )" ++ LF ++ LF in
      code
  | lookUpRecord =>
      let code := code ++ js "        const " ++ actId
          ++ js "_result = wfa.action(" ++ LF in
      let code := code ++ js "            action.core.lookUpRecord," ++ LF in
      let code := code ++ js "            { $id: Now.ID['" ++ actId
          ++ js "'] }," ++ LF in
      let code := code ++ js "            {" ++ LF in
      let code := code ++ js "                table: '"
          ++ opt_or_else (prop (js "table") config) (js "sys_user") ++ js "',"
          ++ LF in
      let code := code ++ js "                conditions: '"
          ++ opt_or_else (prop (js "conditions") config) [] ++ js "',"
          ++ LF in
      let code := code ++ js "                sort_type: 'sort_asc'," ++ LF in
      let code := code
          ++ js "                if_multiple_records_are_found_action: 'use_first_record',"
          ++ LF in
      let code := code ++ js "            }" ++ LF in
      let code := code ++ js "        )" ++ LF ++ LF in
      code
  end.

(** The text the [snc_generate_flow] handler builds in [code]. *)
Definition snc_generate_flow_code (req : FlowRequest.t) : jsstring :=
  let flowId := idKey (FlowRequest.name req) in
  let code := js "import { action, Flow, wfa, trigger } from '@servicenow/sdk/automation'"
      ++ LF ++ LF in
  let code := code ++ js "export const " ++ flowId ++ js " = Flow(" ++ LF in
  let code := code ++ js "    {" ++ LF in
  let code := code ++ js "        $id: Now.ID['" ++ flowId ++ js "']," ++ LF in
  let code := code ++ js "        name: '" ++ FlowRequest.name req ++ js "',"
      ++ LF in
  let code := code ++ js "        description: '"
      ++ FlowRequest.description req ++ js "'," ++ LF in
  let code := code ++ js "    }," ++ LF in
  let code := code ++ js "    wfa.trigger(" ++ LF in
  let code := code ++ js "        trigger.record."
      ++ TriggerType_string (FlowRequest.triggerType req) ++ js "," ++ LF in
  let code := code ++ js "        { $id: Now.ID['" ++ flowId
      ++ js "_trigger'] }," ++ LF in
  let code := code ++ js "        {" ++ LF in
  let code := code ++ js "            table: '" ++ FlowRequest.table req
      ++ js "'," ++ LF in
  let code :=
    append_if (FlowRequest.condition req)
      (fun c => js "            condition: '" ++ c ++ js "'," ++ LF)
      code in
  let code := code ++ js "            run_flow_in: 'background'," ++ LF in
  let code := code ++ js "            run_on_extended: 'false'," ++ LF in
  let code := code ++ js "            run_when_setting: 'both'," ++ LF in
  let code := code ++ js "            run_when_user_setting: 'any'," ++ LF in
  let code := code ++ js "            run_when_user_list: []," ++ LF in
  let code := code ++ js "        }" ++ LF in
  let code := code ++ js "    )," ++ LF in
  let code := code ++ js "    (params) => {" ++ LF in
  let code :=
    fold_left (flow_action_step flowId (FlowRequest.table req))
              (FlowRequest.actions req) code in
  let code := code ++ js "    }" ++ LF in
  let code := code ++ js ")" ++ LF in
  code.

Definition snc_generate_flow (req : FlowRequest.t) : Async ToolResult :=
  Return {| content := [snc_generate_flow_code req]; isError := None |}.

Inductive When := before | after | async | display.

Definition When_string (w : When) : jsstring :=
  match w with
  | before => js "before"
  | after => js "after"
  | async => js "async"
  | display => js "display"
  end.

Inductive RuleAction := rule_insert | rule_update | rule_delete | rule_query.

Definition RuleAction_string (a : RuleAction) : jsstring :=
  match a with
  | rule_insert => js "insert"
  | rule_update => js "update"
  | rule_delete => js "delete"
  | rule_query => js "query"
  end.

Module BusinessRuleRequest.
Record t := {
  name : jsstring;
  table : jsstring;
  when : When;
  actions : list RuleAction;
  condition : option jsstring;
  scriptBody : jsstring;
  scriptFunctionName : option jsstring
}.
End BusinessRuleRequest.

(** The text the [snc_generate_business_rule] handler builds in [code]. *)
Definition snc_generate_business_rule_code (req : BusinessRuleRequest.t)
    : jsstring :=
  let ruleId := idKey (BusinessRuleRequest.name req) in
  let fnName :=
    opt_or_else (BusinessRuleRequest.scriptFunctionName req)
                (ruleId ++ js "Script") in
  let actionStr :=
    join (js ", ")
         (map (fun a => js "'" ++ RuleAction_string a ++ js "'")
              (BusinessRuleRequest.actions req)) in
  let code := js "import { BusinessRule } from '@servicenow/sdk/core'" ++ LF in
  let code := code ++ js "import { GlideRecord, gs } from '@servicenow/glide'"
      ++ LF ++ LF in
  let code := code ++ js "function " ++ fnName
      ++ js "(current: GlideRecord): void {" ++ LF in
  let code := code ++ js "    " ++ BusinessRuleRequest.scriptBody req ++ LF in
  let code := code ++ js "}" ++ LF ++ LF in
  let code := code ++ js "BusinessRule({" ++ LF in
  let code := code ++ js "    $id: Now.ID['" ++ ruleId ++ js "']," ++ LF in
  let code := code ++ js "    name: '" ++ BusinessRuleRequest.name req
      ++ js "'," ++ LF in
  let code := code ++ js "    table: '" ++ BusinessRuleRequest.table req
      ++ js "'," ++ LF in
  let code := code ++ js "    when: '"
      ++ When_string (BusinessRuleRequest.when req) ++ js "'," ++ LF in
  let code := code ++ js "    action: [" ++ actionStr ++ js "]," ++ LF in
  let code := code ++ js "    active: true," ++ LF in
  let code :=
    append_if (BusinessRuleRequest.condition req)
      (fun c => js "    filter_condition: '" ++ c ++ js "'," ++ LF)
      code in
  let code := code ++ js "    script: " ++ fnName ++ js "," ++ LF in
  let code := code ++ js "    abort_action: false," ++ LF in
  let code := code ++ js "})" ++ LF in
  code.

Definition snc_generate_business_rule (req : BusinessRuleRequest.t)
    : Async ToolResult :=
  Return {| content := [snc_generate_business_rule_code req];
            isError := None |}.

Inductive Operation := op_create | op_read | op_write | op_delete.

Definition Operation_string (op : Operation) : jsstring :=
  match op with
  | op_create => js "create"
  | op_read => js "read"
  | op_write => js "write"
  | op_delete => js "delete"
  end.

(** The value [.default(...)] gives [operations] when the caller leaves it
    out. *)
Definition default_operations : list Operation :=
  [op_create; op_read; op_write; op_delete].

Module AclRequest.
Record t := {
  table : jsstring;
  operations : list Operation;
  roleName : option jsstring;
  roleImportPath : option jsstring
}.
End AclRequest.

(** [if (roleName && roleImportPath) code += ...] of the ACL and menu
    generators. *)
Definition append_role_import (roleName roleImportPath : option jsstring)
    (code : jsstring) : jsstring :=
  match roleName, roleImportPath with
  | Some r, Some p =>
      if truthy r && truthy p
      then code ++ js "import { " ++ r ++ js " } from '" ++ p ++ js "'" ++ LF
      else code
  | _, _ => code
  end.

(** [aclId] of the operation loop. *)
Definition acl_aclId (table : jsstring) (op : Operation) : jsstring :=
  idKey (table ++ js "_" ++ Operation_string op).

(** One turn of the operation loop of [snc_generate_acl]. *)
Definition acl_step (table : jsstring) (roleName : option jsstring)
    (code : jsstring) (op : Operation) : jsstring :=
  let aclId := acl_aclId table op in
  let code := code ++ js "Acl({" ++ LF in
  let code := code ++ js "    $id: Now.ID['" ++ aclId ++ js "']," ++ LF in
  let code := code ++ js "    active: true," ++ LF in
  let code := code ++ js "    type: 'record'," ++ LF in
  let code := code ++ js "    operation: '" ++ Operation_string op ++ js "',"
      ++ LF in
  let code := append_if roleName (fun r => js "    roles: [" ++ r ++ js "],"
      ++ LF) code in
  let code := code ++ js "    table: '" ++ table ++ js "'," ++ LF in
  let code := code ++ js "})" ++ LF ++ LF in
  code.

(** The text the [snc_generate_acl] handler builds in [code]. *)
Definition snc_generate_acl_code (req : AclRequest.t) : jsstring :=
  let code := js "import { Acl } from '@servicenow/sdk/core'" ++ LF in
  let code :=
    append_role_import (AclRequest.roleName req)
                       (AclRequest.roleImportPath req) code in
  let code := code ++ LF in
  let code :=
    fold_left (acl_step (AclRequest.table req) (AclRequest.roleName req))
              (AclRequest.operations req) code in
  code.

Definition snc_generate_acl (req : AclRequest.t) : Async ToolResult :=
  Return {| content := [snc_generate_acl_code req]; isError := None |}.

Module RoleRequest.
Record t := {
  name : jsstring;
  description : jsstring;
  exportName : option jsstring
}.
End RoleRequest.

(** [varName] of the role generator. *)
Definition role_varName (req : RoleRequest.t) : jsstring :=
  opt_or_else (RoleRequest.exportName req)
    (idKey (or_else (lastSegment (RoleRequest.name req))
                    (RoleRequest.name req))).

(** The text the [snc_generate_role] handler builds in [code]. *)
Definition snc_generate_role_code (req : RoleRequest.t) : jsstring :=
  let varName := role_varName req in
  let code := js "import { Role } from '@servicenow/sdk/core'" ++ LF ++ LF in
  let code := code ++ js "export const " ++ varName ++ js " = Role({" ++ LF in
  let code := code ++ js "    name: '" ++ RoleRequest.name req ++ js "',"
      ++ LF in
  let code := code ++ js "    description: '" ++ RoleRequest.description req
      ++ js "'," ++ LF in
  let code := code ++ js "})" ++ LF in
  code.

Definition snc_generate_role (req : RoleRequest.t) : Async ToolResult :=
  Return {| content := [snc_generate_role_code req]; isError := None |}.

Inductive LinkType := LIST | NEW.

Definition LinkType_string (l : LinkType) : jsstring :=
  match l with LIST => js "LIST" | NEW => js "NEW" end.

Module MenuModule.
Record t (number : Type) := {
  title : jsstring;
  table : jsstring;
  linkType : LinkType;
  order : number
}.
Arguments title {number} _.
Arguments table {number} _.
Arguments linkType {number} _.
Arguments order {number} _.
End MenuModule.

Module AppMenuRequest.
Record t (number : Type) := {
  title : jsstring;
  description : jsstring;
  modules : list (MenuModule.t number);
  roleName : option jsstring;
  roleImportPath : option jsstring
}.
Arguments title {number} _.
Arguments description {number} _.
Arguments modules {number} _.
Arguments roleName {number} _.
Arguments roleImportPath {number} _.
End AppMenuRequest.

(** [modId] of the module loop. *)
Definition menu_modId {number} (menuId : jsstring) (mdl : MenuModule.t number)
    : jsstring :=
  idKey (menuId ++ js "_" ++ MenuModule.title mdl).

(** One turn of the module loop of [snc_generate_app_menu]. *)
Definition menu_step {number} `{JsNumber number} (menuId : jsstring)
    (code : jsstring) (mdl : MenuModule.t number) : jsstring :=
  let modId := menu_modId menuId mdl in
  let code := code ++ js "Record({" ++ LF in
  let code := code ++ js "    table: 'sys_app_module'," ++ LF in
  let code := code ++ js "    $id: Now.ID['" ++ modId ++ js "']," ++ LF in
  let code := code ++ js "    data: {" ++ LF in
  let code := code ++ js "        title: '" ++ MenuModule.title mdl ++ js "',"
      ++ LF in
  let code := code ++ js "        active: true," ++ LF in
  let code := code ++ js "        application: " ++ menuId ++ js ".$id,"
      ++ LF in
  let code := code ++ js "        link_type: '"
      ++ LinkType_string (MenuModule.linkType mdl) ++ js "'," ++ LF in
  let code := code ++ js "        name: '" ++ MenuModule.table mdl ++ js "',"
      ++ LF in
  let code := code ++ js "        order: "
      ++ numberToString (MenuModule.order mdl) ++ js "," ++ LF in
  let code := code ++ js "        override_menu_roles: false," ++ LF in
  let code := code ++ js "        require_confirmation: false," ++ LF in
  let code := code ++ js "        uncancelable: false," ++ LF in
  let code := code ++ js "    }," ++ LF in
  let code := code ++ js "})" ++ LF ++ LF in
  code.

(** The text the [snc_generate_app_menu] handler builds in [code]. *)
Definition snc_generate_app_menu_code {number} `{JsNumber number}
    (req : AppMenuRequest.t number) : jsstring :=
  let menuId := idKey (AppMenuRequest.title req) in
  let code := js "import { ApplicationMenu, Record } from '@servicenow/sdk/core'"
      ++ LF in
  let code :=
    append_role_import (AppMenuRequest.roleName req)
                       (AppMenuRequest.roleImportPath req) code in
  let code := code ++ LF in
  let code := code ++ js "export const " ++ menuId
      ++ js " = ApplicationMenu({" ++ LF in
  let code := code ++ js "    $id: Now.ID['" ++ menuId ++ js "']," ++ LF in
  let code := code ++ js "    title: '" ++ AppMenuRequest.title req ++ js "',"
      ++ LF in
  let code := code ++ js "    description: '"
      ++ AppMenuRequest.description req ++ js "'," ++ LF in
  let code := code ++ js "    active: true," ++ LF in
  let code :=
    append_if (AppMenuRequest.roleName req)
      (fun r => js "    roles: [" ++ r ++ js "]," ++ LF)
      code in
  let code := code ++ js "})" ++ LF ++ LF in
  let code := fold_left (menu_step menuId) (AppMenuRequest.modules req) code in
  code.

Definition snc_generate_app_menu {number} `{JsNumber number}
    (req : AppMenuRequest.t number) : Async ToolResult :=
  Return {| content := [snc_generate_app_menu_code req]; isError := None |}.

Module WorkspaceTable.
Record t := {
  tableName : jsstring;
  primary : bool;
  listColumns : list jsstring
}.
End WorkspaceTable.

Module WorkspaceRequest.
Record t := {
  title : jsstring;
  urlPath : jsstring;
  description : jsstring;
  tables : list WorkspaceTable.t
}.
End WorkspaceRequest.

(** The keys of one turn of the table loop. *)
Definition ws_tblId (tbl : WorkspaceTable.t) : jsstring :=
  idKey (js "ws_" ++ WorkspaceTable.tableName tbl).

Definition ws_viewId (tbl : WorkspaceTable.t) : jsstring :=
  idKey (WorkspaceTable.tableName tbl ++ js "_view").

Definition ws_listId (tbl : WorkspaceTable.t) : jsstring :=
  idKey (WorkspaceTable.tableName tbl ++ js "_list").

(** The array mapped from [tbl.listColumns], before it is joined. *)
Definition listColumnEntries (listColumns : list jsstring) : list jsstring :=
  mapi (fun c i => js "        { element: '" ++ c ++ js "', position: "
      ++ natToString i ++ js " }") listColumns.

(** One turn of the table loop of [snc_generate_workspace]. *)
Definition workspace_step (wsId : jsstring)
    (code : jsstring) (tbl : WorkspaceTable.t) : jsstring :=
  let tblId := ws_tblId tbl in
  let code := code ++ js "Record({" ++ LF in
  let code := code ++ js "    table: 'sys_aw_table'," ++ LF in
  let code := code ++ js "    $id: Now.ID['" ++ tblId ++ js "']," ++ LF in
  let code := code ++ js "    data: {" ++ LF in
  let code := code ++ js "        master_config: Now.ID['" ++ wsId ++ js "'],"
      ++ LF in
  let code := code ++ js "        table: '" ++ WorkspaceTable.tableName tbl
      ++ js "'," ++ LF in
  let code := code ++ js "        active: true," ++ LF in
  let code := code ++ js "        primary: "
      ++ boolToString (WorkspaceTable.primary tbl) ++ js "," ++ LF in
  let code := code ++ js "    }," ++ LF in
  let code := code ++ js "})" ++ LF ++ LF in
  let viewId := ws_viewId tbl in
  let code := code ++ js "const " ++ viewId ++ js " = Record({" ++ LF in
  let code := code ++ js "    table: 'sys_ui_view'," ++ LF in
  let code := code ++ js "    $id: Now.ID['" ++ viewId ++ js "']," ++ LF in
  let code := code ++ js "    data: {" ++ LF in
  let code := code ++ js "        name: '" ++ viewId ++ js "'," ++ LF in
  let code := code ++ js "        title: '" ++ WorkspaceTable.tableName tbl
      ++ js " Workspace View'," ++ LF in
  let code := code ++ js "    }," ++ LF in
  let code := code ++ js "})" ++ LF ++ LF in
  let listId := ws_listId tbl in
  let cols :=
    join (js "," ++ LF) (listColumnEntries (WorkspaceTable.listColumns tbl)) in
  let code := code ++ js "List({" ++ LF in
  let code := code ++ js "    $id: Now.ID['" ++ listId ++ js "']," ++ LF in
  let code := code ++ js "    table: '" ++ WorkspaceTable.tableName tbl
      ++ js "'," ++ LF in
  let code := code ++ js "    view: " ++ viewId ++ js "," ++ LF in
  let code := code ++ js "    columns: [" ++ LF ++ cols ++ js "," ++ LF
      ++ js "    ]," ++ LF in
  let code := code ++ js "})" ++ LF ++ LF in
  code.

(** The text the [snc_generate_workspace] handler builds in [code]. *)
Definition snc_generate_workspace_code (req : WorkspaceRequest.t) : jsstring :=
  let wsId := idKey (WorkspaceRequest.title req) in
  let code := js "import { Record, List } from '@servicenow/sdk/core'" ++ LF
      ++ LF in
  let code := code ++ js "Record({" ++ LF in
  let code := code ++ js "    table: 'sys_aw_master_config'," ++ LF in
  let code := code ++ js "    $id: Now.ID['" ++ wsId ++ js "']," ++ LF in
  let code := code ++ js "    data: {" ++ LF in
  let code := code ++ js "        title: '" ++ WorkspaceRequest.title req
      ++ js "'," ++ LF in
  let code := code ++ js "        description: '"
      ++ WorkspaceRequest.description req ++ js "'," ++ LF in
  let code := code ++ js "        url_path: '" ++ WorkspaceRequest.urlPath req
      ++ js "'," ++ LF in
  let code := code ++ js "        active: true," ++ LF in
  let code := code ++ js "    }," ++ LF in
  let code := code ++ js "})" ++ LF ++ LF in
  let code :=
    fold_left (workspace_step wsId) (WorkspaceRequest.tables req) code in
  code.

Definition snc_generate_workspace (req : WorkspaceRequest.t)
    : Async ToolResult :=
  Return {| content := [snc_generate_workspace_code req]; isError := None |}.

(** ** The guided prompt *)

Record PromptArgs := {
  prompt_appName : jsstring;
  prompt_scopeName : jsstring;
  prompt_description : option jsstring
}.

(** One message of a prompt: its [role] and the [text] of its content. *)
Record PromptMessage := {
  role : jsstring;
  message_text : jsstring
}.

(** The checklist the prompt ends with, from the blank line after the first
    paragraph on. *)
Definition new_app_checklist : jsstring :=
  LF
  ++ LF
  ++ js "Use the ServiceNow MCP tools to build the complete application:"
     ++ LF
  ++ LF
  ++ js "1. **Initialize** " ++ [8212%N]
     ++ js " Use `snc_init` with template `typescript.basic` to scaffold the project"
     ++ LF
  ++ js "2. **Tables** " ++ [8212%N]
     ++ js " Use `snc_generate_table` for each table needed. Ask me what tables and columns I want."
     ++ LF
  ++ js "3. **Roles** " ++ [8212%N]
     ++ js " Use `snc_generate_role` to create access roles" ++ LF
  ++ js "4. **ACLs** " ++ [8212%N]
     ++ js " Use `snc_generate_acl` to secure each table" ++ LF
  ++ js "5. **Business Rules** " ++ [8212%N]
     ++ js " Use `snc_generate_business_rule` for any automation logic" ++ LF
  ++ js "6. **Flows** " ++ [8212%N]
     ++ js " Use `snc_generate_flow` for workflow automation" ++ LF
  ++ js "7. **App Menu** " ++ [8212%N]
     ++ js " Use `snc_generate_app_menu` to create navigation" ++ LF
  ++ js "8. **Workspace** " ++ [8212%N]
     ++ js " Use `snc_generate_workspace` to set up the workspace UI" ++ LF
  ++ js "9. **Build** " ++ [8212%N] ++ js " Use `snc_build` to compile" ++ LF
  ++ js "10. **Deploy** " ++ [8212%N]
     ++ js " Use `snc_install` to deploy to the instance" ++ LF
  ++ LF
 
     ++ js "Start by asking me about the tables and fields I need for this application.".

(** The handler of the [new-servicenow-app] prompt. *)
Definition new_servicenow_app (args : PromptArgs)
    : Async (list PromptMessage) :=
  Return
    [{| role := js "user";
        message_text :=
          js "Create a new ServiceNow application called " ++ [34%N]
          ++ prompt_appName args ++ [34%N] ++ js " with scope " ++ [34%N]
          ++ prompt_scopeName args ++ [34%N] ++ js "."
          ++ match prompt_description args with
             | Some description =>
                 if truthy description then js " " ++ description else []
             | None => []
             end
          ++ new_app_checklist |}].

(** * Vocabulary of the properties *)

(** A process with no [SNC_DEFAULT_AUTH_ALIAS] in its environment. *)
Definition bare_process : Process :=
  {| process_env := fun _ => None; process_cwd := js "/srv/app" |}.

(** The options [runSdk] hands to [exec]. *)
Definition runSdk_options (process : Process) (cwd : option jsstring)
    : ExecOptions :=
  {| cwd := opt_or_else cwd (process_cwd process);
     timeout := 120000;
     env := env_set (js "FORCE_COLOR") (js "0") (process_env process) |}.

(** A chunk of text stands somewhere in a text. *)
Definition occurs (chunk text : jsstring) : Prop :=
  exists pre post, text = pre ++ chunk ++ post.

(** One line of a choice block: key, label and sequence number. *)
Definition choice_line (indent : jsstring) (p : jsstring * jsstring * nat)
    : jsstring :=
  let '(k, v, n) := p in
  indent ++ js "            " ++ k ++ js ": { label: '" ++ v
  ++ js "', sequence: " ++ natToString n ++ js " }".

(** The column and the request of the specification's scenario. *)
Definition status_column : ColumnSpec.t SafeInteger :=
  {| ColumnSpec.name := js "status";
     ColumnSpec.type := col_choice;
     ColumnSpec.label := js "Status";
     ColumnSpec.mandatory := None;
     ColumnSpec.maxLength := None;
     ColumnSpec.referenceTable := None;
     ColumnSpec.choices :=
       Some [(js "open", js "Open"); (js "closed", js "Closed")];
     ColumnSpec.defaultValue := None |}.

Definition item_table : TableRequest.t SafeInteger :=
  {| TableRequest.tableName := js "x_myorg_item";
     TableRequest.label := js "Item";
     TableRequest.columns := [status_column];
     TableRequest.displayColumn := None |}.

(** The text one turn of the action loop appends. *)
Definition flow_action_block (flowId table : jsstring) (act : ActionSpec.t)
    : jsstring :=
  flow_action_step flowId table [] act.

(** The first line of the block of an action: the call of [wfa.action],
    bound to a constant for a look-up. *)
Definition block_opening (flowId : jsstring) (act : ActionSpec.t)
    : jsstring :=
  match ActionSpec.type act with
  | lookUpRecord =>
      js "        const " ++ flow_actId flowId act
      ++ js "_result = wfa.action("
  | _ => js "        wfa.action("
  end.

(** A text starts, or ends, with a given chunk. *)
Definition starts_with (chunk text : jsstring) : Prop :=
  exists rest, text = chunk ++ rest.

Definition ends_with (chunk text : jsstring) : Prop :=
  exists front, text = front ++ chunk.

(** A text is an action block for [act]: it opens the call of
    [wfa.action], names the template of the action's type and the action's
    [$id] key, and ends by closing the call. *)
Definition is_block_of (flowId : jsstring) (act : ActionSpec.t)
    (block : jsstring) : Prop :=
  starts_with
    (block_opening flowId act ++ LF
     ++ js "            action.core."
     ++ ActionType_string (ActionSpec.type act) ++ js "," ++ LF
     ++ js "            { $id: Now.ID['" ++ flow_actId flowId act
     ++ js "'] }," ++ LF)
    block
  /\ ends_with (js "        )" ++ LF ++ LF) block.

(** The records the workspace generator is to emit, spelled out. *)
Definition master_config_block (title urlPath description : jsstring)
    : jsstring :=
  js "Record({" ++ LF
  ++ js "    table: 'sys_aw_master_config'," ++ LF
  ++ js "    $id: Now.ID['" ++ idKey title ++ js "']," ++ LF
  ++ js "    data: {" ++ LF
  ++ js "        title: '" ++ title ++ js "'," ++ LF
  ++ js "        description: '" ++ description ++ js "'," ++ LF
  ++ js "        url_path: '" ++ urlPath ++ js "'," ++ LF
  ++ js "        active: true," ++ LF
  ++ js "    }," ++ LF
  ++ js "})" ++ LF ++ LF.

Definition aw_table_block (wsId : jsstring) (tbl : WorkspaceTable.t)
    : jsstring :=
  js "Record({" ++ LF
  ++ js "    table: 'sys_aw_table'," ++ LF
  ++ js "    $id: Now.ID['" ++ ws_tblId tbl ++ js "']," ++ LF
  ++ js "    data: {" ++ LF
  ++ js "        master_config: Now.ID['" ++ wsId ++ js "']," ++ LF
  ++ js "        table: '" ++ WorkspaceTable.tableName tbl ++ js "'," ++ LF
  ++ js "        active: true," ++ LF
  ++ js "        primary: " ++ boolToString (WorkspaceTable.primary tbl)
  ++ js "," ++ LF
  ++ js "    }," ++ LF
  ++ js "})" ++ LF ++ LF.

Definition ui_view_block (tbl : WorkspaceTable.t) : jsstring :=
  js "const " ++ ws_viewId tbl ++ js " = Record({" ++ LF
  ++ js "    table: 'sys_ui_view'," ++ LF
  ++ js "    $id: Now.ID['" ++ ws_viewId tbl ++ js "']," ++ LF
  ++ js "    data: {" ++ LF
  ++ js "        name: '" ++ ws_viewId tbl ++ js "'," ++ LF
  ++ js "        title: '" ++ WorkspaceTable.tableName tbl
  ++ js " Workspace View'," ++ LF
  ++ js "    }," ++ LF
  ++ js "})" ++ LF ++ LF.

(** One entry of the [columns] array of a list: column and position. *)
Definition position_line (p : jsstring * nat) : jsstring :=
  let '(c, i) := p in
  js "        { element: '" ++ c ++ js "', position: " ++ natToString i
  ++ js " }".

Definition list_block (tbl : WorkspaceTable.t) : jsstring :=
  let listColumns := WorkspaceTable.listColumns tbl in
  let n := List.length listColumns in
  js "List({" ++ LF
  ++ js "    $id: Now.ID['" ++ ws_listId tbl ++ js "']," ++ LF
  ++ js "    table: '" ++ WorkspaceTable.tableName tbl ++ js "'," ++ LF
  ++ js "    view: " ++ ws_viewId tbl ++ js "," ++ LF
  ++ js "    columns: [" ++ LF
  ++ join (js "," ++ LF) (map position_line (combine listColumns (seq 0 n)))
  ++ js "," ++ LF ++ js "    ]," ++ LF
  ++ js "})" ++ LF ++ LF.

(** What [if (x) code += chunk] appends. *)
Definition opt_chunk (x : option jsstring) (chunk : jsstring -> jsstring)
    : jsstring :=
  match x with
  | Some v => if truthy v then chunk v else []
  | None => []
  end.

(** A column whose [mandatory] is [m], and a table whose [displayColumn] is
    [d]. *)
Definition active_column (m : option bool) : ColumnSpec.t SafeInteger :=
  {| ColumnSpec.name := js "active";
     ColumnSpec.type := col_boolean;
     ColumnSpec.label := js "Active";
     ColumnSpec.mandatory := m;
     ColumnSpec.maxLength := None;
     ColumnSpec.referenceTable := None;
     ColumnSpec.choices := None;
     ColumnSpec.defaultValue := None |}.

Definition flags_table (d : option jsstring) : TableRequest.t SafeInteger :=
  {| TableRequest.tableName := js "x_myorg_flag";
     TableRequest.label := js "Flag";
     TableRequest.columns := [active_column (Some false)];
     TableRequest.displayColumn := d |}.

(** The options of the subprocesses a handler spawns, in order. *)
Fixpoint spawned_options {A} (w : World) (t : Async A) : list ExecOptions :=
  match t with
  | Return _ => []
  | Await c o k => o :: spawned_options w (k (w c o))
  end.

(** A text has no white space or line terminator at either end. *)
Definition no_outer_space (t : jsstring) : bool :=
  match t with
  | c :: _ => negb (isTrimmable c)
  | [] => true
  end
  && match rev t with
     | c :: _ => negb (isTrimmable c)
     | [] => true
     end.

(** One line of the [values] object of an update action. *)
Definition value_line (kv : jsstring * jsstring) : jsstring :=
  js "                    " ++ fst kv ++ js ": '" ++ snd kv ++ js "'," ++ LF.

(** The keys the action loop can give the actions of one flow. *)
Definition flow_action_keys (flowId : jsstring) : list jsstring :=
  map (fun t => idKey (flowId ++ js "_" ++ ActionType_string t))
      [log; updateRecord; sendEmail; lookUpRecord].

(** The sorted array of names the table generator imports. *)
Definition table_imports {number} (columns : list (ColumnSpec.t number))
    : list jsstring :=
  sort (fold_left
          (fun imports col =>
             set_add (columnTypeImport (ColumnSpec.type col)) imports)
          columns [js "Table"]).

(** The strict order of [string_ltb]. *)
Definition string_lt (a b : jsstring) : Prop := string_ltb a b = true.

(** What is left of a text after a given beginning, and after the first
    place a chunk stands at. *)
Fixpoint strip_prefix (p s : jsstring) : option jsstring :=
  match p, s with
  | [], _ => Some s
  | c :: p', d :: s' => if (c =? d)%N then strip_prefix p' s' else None
  | _ :: _, [] => None
  end.

Fixpoint after_first (chunk text : jsstring) : option jsstring :=
  match strip_prefix chunk text with
  | Some rest => Some rest
  | None =>
      match text with
      | [] => None
      | _ :: t => after_first chunk t
      end
  end.

(** The chunks stand in a text one after the other, in the order given. *)
Fixpoint in_order (chunks : list jsstring) (text : jsstring) : Prop :=
  match chunks with
  | [] => True
  | c :: rest =>
      exists pre post, text = pre ++ c ++ post /\ in_order rest post
  end.

Fixpoint in_order_b (chunks : list jsstring) (text : jsstring) : bool :=
  match chunks with
  | [] => true
  | c :: rest =>
      match after_first c text with
      | Some post => in_order_b rest post
      | None => false
      end
  end.

(** ** The documents of the generators, spelled out

    Each generator's output as one text, with every key written as the
    normalizer applied to its seed and every optional field written with
    the condition under which it appears. *)

(** The key of an action of type [t] in the flow called [name]. *)
Definition action_key (name : jsstring) (t : ActionType) : jsstring :=
  idKey (name ++ js "_" ++ ActionType_string t).

(** The flow document up to the opening of the function that holds the
    actions: imports, flow record and trigger.  No action stands in it. *)
Definition flow_header (name description : jsstring)
    (triggerType : TriggerType) (table : jsstring)
    (condition : option jsstring) : jsstring :=
  js "import { action, Flow, wfa, trigger } from '@servicenow/sdk/automation'"
  ++ LF ++ LF
  ++ js "export const " ++ idKey name ++ js " = Flow(" ++ LF
  ++ js "    {" ++ LF
  ++ js "        $id: Now.ID['" ++ idKey name ++ js "']," ++ LF
  ++ js "        name: '" ++ name ++ js "'," ++ LF
  ++ js "        description: '" ++ description ++ js "'," ++ LF
  ++ js "    }," ++ LF
  ++ js "    wfa.trigger(" ++ LF
  ++ js "        trigger.record." ++ TriggerType_string triggerType ++ js ","
  ++ LF
  ++ js "        { $id: Now.ID['" ++ idKey (name ++ js "_trigger")
  ++ js "'] }," ++ LF
  ++ js "        {" ++ LF
  ++ js "            table: '" ++ table ++ js "'," ++ LF
  ++ opt_chunk condition
       (fun c => js "            condition: '" ++ c ++ js "'," ++ LF)
  ++ js "            run_flow_in: 'background'," ++ LF
  ++ js "            run_on_extended: 'false'," ++ LF
  ++ js "            run_when_setting: 'both'," ++ LF
  ++ js "            run_when_user_setting: 'any'," ++ LF
  ++ js "            run_when_user_list: []," ++ LF
  ++ js "        }" ++ LF
  ++ js "    )," ++ LF
  ++ js "    (params) => {" ++ LF.

(** The two lines that close the flow document. *)
Definition flow_footer : jsstring :=
  js "    }" ++ LF ++ js ")" ++ LF.

(** The one block of an action: one call of [wfa.action] with the template
    of the action's type, from its first line to the blank line after the
    closing parenthesis. *)
Definition action_block (name table : jsstring) (act : ActionSpec.t)
    : jsstring :=
  let config := ActionSpec.config act in
  match ActionSpec.type act with
  | log =>
      js "        wfa.action(" ++ LF
      ++ js "            action.core.log," ++ LF
      ++ js "            { $id: Now.ID['" ++ action_key name log ++ js "'] },"
      ++ LF
      ++ js "            {" ++ LF
      ++ js "                log_level: '"
      ++ opt_or_else (prop (js "level") config) (js "info") ++ js "'," ++ LF
      ++ js "                log_message: '"
      ++ opt_or_else (prop (js "message") config) (js "Flow executed")
      ++ js "'," ++ LF
      ++ js "            }" ++ LF
      ++ js "        )" ++ LF ++ LF
  | updateRecord =>
      js "        wfa.action(" ++ LF
      ++ js "            action.core.updateRecord," ++ LF
      ++ js "            { $id: Now.ID['" ++ action_key name updateRecord
      ++ js "'] }," ++ LF
      ++ js "            {" ++ LF
      ++ js "                table_name: '"
      ++ opt_or_else (prop (js "table") config) table ++ js "'," ++ LF
      ++ js "                // @ts-ignore - sys_id is a system column" ++ LF
      ++ js "                record: wfa.dataPill(params.trigger.current.sys_id, 'reference'),"
      ++ LF
      ++ js "                values: {" ++ LF
      ++ List.concat
           (map value_line
                (filter (fun kv => negb (JS.eqb (fst kv) (js "table")))
                        config))
      ++ js "                }," ++ LF
      ++ js "            }" ++ LF
      ++ js "        )" ++ LF ++ LF
  | sendEmail =>
      js "        wfa.action(" ++ LF
      ++ js "            action.core.sendEmail," ++ LF
      ++ js "            { $id: Now.ID['" ++ action_key name sendEmail
      ++ js "'] }," ++ LF
      ++ js "            {" ++ LF
      ++ js "                table_name: '" ++ table ++ js "'," ++ LF
      ++ js "                watermark_email: true," ++ LF
      ++ js "                ah_subject: '"
      ++ opt_or_else (prop (js "subject") config) (js "Notification")
      ++ js "'," ++ LF
      ++ js "                ah_body: '"
      ++ opt_or_else (prop (js "body") config) [] ++ js "'," ++ LF
      ++ js "                // @ts-ignore - sys_id is a system column" ++ LF
      ++ js "                record: wfa.dataPill(params.trigger.current.sys_id, 'reference'),"
      ++ LF
      ++ js "                ah_to: '"
      ++ opt_or_else (prop (js "to") config) [] ++ js "'," ++ LF
      ++ js "            }" ++ LF
      ++ js "        )" ++ LF ++ LF
  | lookUpRecord =>
      js "        const " ++ action_key name lookUpRecord
      ++ js "_result = wfa.action(" ++ LF
      ++ js "            action.core.lookUpRecord," ++ LF
      ++ js "            { $id: Now.ID['" ++ action_key name lookUpRecord
      ++ js "'] }," ++ LF
      ++ js "            {" ++ LF
      ++ js "                table: '"
      ++ opt_or_else (prop (js "table") config) (js "sys_user") ++ js "',"
      ++ LF
      ++ js "                conditions: '"
      ++ opt_or_else (prop (js "conditions") config) [] ++ js "'," ++ LF
      ++ js "                sort_type: 'sort_asc'," ++ LF
      ++ js "                if_multiple_records_are_found_action: 'use_first_record',"
      ++ LF
      ++ js "            }" ++ LF
      ++ js "        )" ++ LF ++ LF
  end.

(** The flow document: the header, the blocks of the actions in the order
    of the request, the footer. *)
Definition flow_document (req : FlowRequest.t) : jsstring :=
  flow_header (FlowRequest.name req) (FlowRequest.description req)
              (FlowRequest.triggerType req) (FlowRequest.table req)
              (FlowRequest.condition req)
  ++ List.concat
       (map (action_block (FlowRequest.name req) (FlowRequest.table req))
            (FlowRequest.actions req))
  ++ flow_footer.

(** The import of the role: there only when both the role name and the
    import path are given and not empty. *)
Definition role_import_line (roleName roleImportPath : option jsstring)
    : jsstring :=
  match roleName, roleImportPath with
  | Some (c :: r), Some (d :: p) =>
      js "import { " ++ (c :: r) ++ js " } from '" ++ (d :: p) ++ js "'"
      ++ LF
  | _, _ => []
  end.

(** The block of one operation of an ACL request; its [roles] line is
    there only when the role name is given and not empty. *)
Definition acl_block (table : jsstring) (roleName : option jsstring)
    (op : Operation) : jsstring :=
  js "Acl({" ++ LF
  ++ js "    $id: Now.ID['" ++ idKey (table ++ js "_" ++ Operation_string op)
  ++ js "']," ++ LF
  ++ js "    active: true," ++ LF
  ++ js "    type: 'record'," ++ LF
  ++ js "    operation: '" ++ Operation_string op ++ js "'," ++ LF
  ++ opt_chunk roleName (fun r => js "    roles: [" ++ r ++ js "]," ++ LF)
  ++ js "    table: '" ++ table ++ js "'," ++ LF
  ++ js "})" ++ LF ++ LF.

Definition acl_document (req : AclRequest.t) : jsstring :=
  js "import { Acl } from '@servicenow/sdk/core'" ++ LF
  ++ role_import_line (AclRequest.roleName req)
                      (AclRequest.roleImportPath req)
  ++ LF
  ++ List.concat
       (map (acl_block (AclRequest.table req) (AclRequest.roleName req))
            (AclRequest.operations req)).

(** The name of the script function of a business rule: the caller's when
    it is given and not empty, and the rule's key followed by [Script]
    otherwise. *)
Definition rule_function_name (req : BusinessRuleRequest.t) : jsstring :=
  match BusinessRuleRequest.scriptFunctionName req with
  | Some (c :: f) => c :: f
  | Some [] => idKey (BusinessRuleRequest.name req) ++ js "Script"
  | None => idKey (BusinessRuleRequest.name req) ++ js "Script"
  end.

Definition business_rule_document (req : BusinessRuleRequest.t)
    : jsstring :=
  let fnName := rule_function_name req in
  let actionStr :=
    join (js ", ")
         (map (fun a => js "'" ++ RuleAction_string a ++ js "'")
              (BusinessRuleRequest.actions req)) in
  js "import { BusinessRule } from '@servicenow/sdk/core'" ++ LF
  ++ js "import { GlideRecord, gs } from '@servicenow/glide'" ++ LF ++ LF
  ++ js "function " ++ fnName ++ js "(current: GlideRecord): void {" ++ LF
  ++ js "    " ++ BusinessRuleRequest.scriptBody req ++ LF
  ++ js "}" ++ LF ++ LF
  ++ js "BusinessRule({" ++ LF
  ++ js "    $id: Now.ID['" ++ idKey (BusinessRuleRequest.name req)
  ++ js "']," ++ LF
  ++ js "    name: '" ++ BusinessRuleRequest.name req ++ js "'," ++ LF
  ++ js "    table: '" ++ BusinessRuleRequest.table req ++ js "'," ++ LF
  ++ js "    when: '" ++ When_string (BusinessRuleRequest.when req) ++ js "',"
  ++ LF
  ++ js "    action: [" ++ actionStr ++ js "]," ++ LF
  ++ js "    active: true," ++ LF
  ++ opt_chunk (BusinessRuleRequest.condition req)
       (fun c => js "    filter_condition: '" ++ c ++ js "'," ++ LF)
  ++ js "    script: " ++ fnName ++ js "," ++ LF
  ++ js "    abort_action: false," ++ LF
  ++ js "})" ++ LF.

(** The exported name of a role: the caller's [exportName] when it is
    given and not empty; otherwise the normalized last dot segment of the
    name, or the normalized whole name when that segment is empty. *)
Definition role_export (req : RoleRequest.t) : jsstring :=
  match RoleRequest.exportName req with
  | Some (c :: e) => c :: e
  | _ =>
      idKey match lastSegment (RoleRequest.name req) with
            | c :: segment => c :: segment
            | [] => RoleRequest.name req
            end
  end.

Definition role_document (req : RoleRequest.t) : jsstring :=
  js "import { Role } from '@servicenow/sdk/core'" ++ LF ++ LF
  ++ js "export const " ++ role_export req ++ js " = Role({" ++ LF
  ++ js "    name: '" ++ RoleRequest.name req ++ js "'," ++ LF
  ++ js "    description: '" ++ RoleRequest.description req ++ js "'," ++ LF
  ++ js "})" ++ LF.

(** The record of one module of a menu titled [title]. *)
Definition menu_record {number} `{JsNumber number} (title : jsstring)
    (mdl : MenuModule.t number) : jsstring :=
  js "Record({" ++ LF
  ++ js "    table: 'sys_app_module'," ++ LF
  ++ js "    $id: Now.ID['" ++ idKey (title ++ js "_" ++ MenuModule.title mdl)
  ++ js "']," ++ LF
  ++ js "    data: {" ++ LF
  ++ js "        title: '" ++ MenuModule.title mdl ++ js "'," ++ LF
  ++ js "        active: true," ++ LF
  ++ js "        application: " ++ idKey title ++ js ".$id," ++ LF
  ++ js "        link_type: '" ++ LinkType_string (MenuModule.linkType mdl)
  ++ js "'," ++ LF
  ++ js "        name: '" ++ MenuModule.table mdl ++ js "'," ++ LF
  ++ js "        order: " ++ numberToString (MenuModule.order mdl) ++ js ","
  ++ LF
  ++ js "        override_menu_roles: false," ++ LF
  ++ js "        require_confirmation: false," ++ LF
  ++ js "        uncancelable: false," ++ LF
  ++ js "    }," ++ LF
  ++ js "})" ++ LF ++ LF.

Definition menu_document {number} `{JsNumber number}
    (req : AppMenuRequest.t number) : jsstring :=
  let title := AppMenuRequest.title req in
  js "import { ApplicationMenu, Record } from '@servicenow/sdk/core'" ++ LF
  ++ role_import_line (AppMenuRequest.roleName req)
                      (AppMenuRequest.roleImportPath req)
  ++ LF
  ++ js "export const " ++ idKey title ++ js " = ApplicationMenu({" ++ LF
  ++ js "    $id: Now.ID['" ++ idKey title ++ js "']," ++ LF
  ++ js "    title: '" ++ title ++ js "'," ++ LF
  ++ js "    description: '" ++ AppMenuRequest.description req ++ js "',"
  ++ LF
  ++ js "    active: true," ++ LF
  ++ opt_chunk (AppMenuRequest.roleName req)
       (fun r => js "    roles: [" ++ r ++ js "]," ++ LF)
  ++ js "})" ++ LF ++ LF
  ++ List.concat (map (menu_record title) (AppMenuRequest.modules req)).

(** The three blocks of one table of a workspace, with their keys written
    from the table name. *)
Definition workspace_table_blocks (title : jsstring)
    (tbl : WorkspaceTable.t) : jsstring :=
  let tableName := WorkspaceTable.tableName tbl in
  let listColumns := WorkspaceTable.listColumns tbl in
  let viewId := idKey (tableName ++ js "_view") in
  js "Record({" ++ LF
  ++ js "    table: 'sys_aw_table'," ++ LF
  ++ js "    $id: Now.ID['" ++ idKey (js "ws_" ++ tableName) ++ js "']," ++ LF
  ++ js "    data: {" ++ LF
  ++ js "        master_config: Now.ID['" ++ idKey title ++ js "']," ++ LF
  ++ js "        table: '" ++ tableName ++ js "'," ++ LF
  ++ js "        active: true," ++ LF
  ++ js "        primary: " ++ boolToString (WorkspaceTable.primary tbl)
  ++ js "," ++ LF
  ++ js "    }," ++ LF
  ++ js "})" ++ LF ++ LF
  ++ js "const " ++ viewId ++ js " = Record({" ++ LF
  ++ js "    table: 'sys_ui_view'," ++ LF
  ++ js "    $id: Now.ID['" ++ viewId ++ js "']," ++ LF
  ++ js "    data: {" ++ LF
  ++ js "        name: '" ++ viewId ++ js "'," ++ LF
  ++ js "        title: '" ++ tableName ++ js " Workspace View'," ++ LF
  ++ js "    }," ++ LF
  ++ js "})" ++ LF ++ LF
  ++ js "List({" ++ LF
  ++ js "    $id: Now.ID['" ++ idKey (tableName ++ js "_list") ++ js "']," ++ LF
  ++ js "    table: '" ++ tableName ++ js "'," ++ LF
  ++ js "    view: " ++ viewId ++ js "," ++ LF
  ++ js "    columns: [" ++ LF
  ++ join (js "," ++ LF)
          (map position_line
               (combine listColumns (seq 0 (List.length listColumns))))
  ++ js "," ++ LF ++ js "    ]," ++ LF
  ++ js "})" ++ LF ++ LF.

Definition workspace_document (req : WorkspaceRequest.t) : jsstring :=
  js "import { Record, List } from '@servicenow/sdk/core'" ++ LF ++ LF
  ++ master_config_block (WorkspaceRequest.title req)
                         (WorkspaceRequest.urlPath req)
                         (WorkspaceRequest.description req)
  ++ List.concat
       (map (workspace_table_blocks (WorkspaceRequest.title req))
            (WorkspaceRequest.tables req)).

(** The table document: its exported name is the table name with the full
    stops replaced, and it has no [$id] key. *)
Definition table_document {number} `{JsNumber number}
    (req : TableRequest.t number) : jsstring :=
  let colCode :=
    join (js "," ++ LF)
         (map (fun c => generateColumnCode c []) (TableRequest.columns req)) in
  js "import { " ++ join (js ", ") (table_imports (TableRequest.columns req))
  ++ js " } from '@servicenow/sdk/core'" ++ LF ++ LF
  ++ js "export const " ++ replaceDots (TableRequest.tableName req)
  ++ js " = Table({" ++ LF
  ++ js "    name: '" ++ TableRequest.tableName req ++ js "'," ++ LF
  ++ js "    label: '" ++ TableRequest.label req ++ js "'," ++ LF
  ++ js "    schema: {" ++ LF ++ colCode ++ js "," ++ LF ++ js "    }," ++ LF
  ++ opt_chunk (TableRequest.displayColumn req)
       (fun d => js "    display: '" ++ d ++ js "'," ++ LF)
  ++ js "})" ++ LF.

(** * Properties *)

Section IdKeyFacts.

(** Boolean range tests over code units, turned into linear arithmetic. *)
Ltac unit_ranges :=
  rewrite ?orb_true_iff, ?andb_true_iff, ?orb_false_iff, ?andb_false_iff,
    ?N.leb_le, ?N.eqb_eq, ?N.leb_gt, ?N.eqb_neq in *.

Lemma isKeyChar_isWordChar (c : codeunit) :
  isKeyChar c = true -> isWordChar c = true.
Proof. unfold isKeyChar, isWordChar. unit_ranges. lia. Qed.

Lemma lowerUnit_keychar (c : codeunit) :
  isWordChar c = true -> isKeyChar (lowerUnit c) = true.
Proof.
  unfold lowerUnit. destruct ((65 <=? c) && (c <=? 90))%N eqn:E;
    unfold isKeyChar, isWordChar; unit_ranges; lia.
Qed.

Lemma lowerUnit_fixed (c : codeunit) :
  isKeyChar c = true -> lowerUnit c = c.
Proof.
  unfold lowerUnit. destruct ((65 <=? c) && (c <=? 90))%N eqn:E;
    [|reflexivity].
  unfold isKeyChar. unit_ranges. lia.
Qed.

Lemma replaceNonWord_word (s : jsstring) :
  forallb isWordChar (replaceNonWord s) = true.
Proof.
  induction s as [|c s IH]; simpl; [reflexivity|].
  rewrite IH, andb_true_r.
  destruct (isWordChar c) eqn:E; [exact E | reflexivity].
Qed.

Lemma idKey_app (a b : jsstring) : idKey (a ++ b) = idKey a ++ idKey b.
Proof. unfold idKey, toLowerCase, replaceNonWord. now rewrite !map_app. Qed.

Lemma idKey_length (s : jsstring) :
  List.length (idKey s) = List.length s.
Proof. unfold idKey, toLowerCase, replaceNonWord. now rewrite !length_map. Qed.

Lemma idKey_keychars (s : jsstring) : forallb isKeyChar (idKey s) = true.
Proof.
  unfold idKey, toLowerCase, replaceNonWord.
  induction s as [|c s IH]; simpl; [reflexivity|].
  rewrite IH, andb_true_r. apply lowerUnit_keychar.
  destruct (isWordChar c) eqn:E; [exact E | reflexivity].
Qed.

Lemma idKey_fixed_on_keychars (s : jsstring) :
  forallb isKeyChar s = true -> idKey s = s.
Proof.
  unfold idKey, toLowerCase, replaceNonWord.
  induction s as [|c s IH]; simpl; [reflexivity|].
  intros H. apply andb_prop in H. destruct H as [Hc Hs].
  rewrite (IH Hs), (isKeyChar_isWordChar c Hc), (lowerUnit_fixed c Hc).
  reflexivity.
Qed.

Lemma idKey_idem (s : jsstring) : idKey (idKey s) = idKey s.
Proof. apply idKey_fixed_on_keychars, idKey_keychars. Qed.

End IdKeyFacts.

(** Claim C2.  The identifier normalizer [idKey] is the function that
    replaces every code unit outside [A-Za-z0-9_] by an underscore and then
    lowercases the result; it is a total function, so it is defined and
    single-valued on every string, and it is idempotent.  The two titles
    of the specification both normalize to [asset_tracker]. *)
Theorem idKey_normalizes_idempotent :
  (forall s : jsstring,
      idKey s
      = map (fun c => lowerUnit (if isWordChar c then c else 95%N)) s)
  /\ (forall s : jsstring, idKey (idKey s) = idKey s)
  /\ idKey (js "Asset Tracker") = js "asset_tracker"
  /\ idKey (js "Asset-Tracker") = js "asset_tracker"
  /\ idKey (js "My App!") = js "my_app_"
  /\ idKey (js "my_app ") = js "my_app_".
Proof.
  split; [|split; [exact idKey_idem | repeat split; reflexivity]].
  intros s. unfold idKey, toLowerCase, replaceNonWord.
  now rewrite map_map.
Qed.

(** ** The model on the inputs of the specification's scenarios *)

Example role_scenario :
  snc_generate_role_code
    {| RoleRequest.name := js "x_myorg.asset_manager";
       RoleRequest.description := js "Manages assets";
       RoleRequest.exportName := None |}
  = js "import { Role } from '@servicenow/sdk/core'" ++ LF ++ LF
    ++ js "export const asset_manager = Role({" ++ LF
    ++ js "    name: 'x_myorg.asset_manager'," ++ LF
    ++ js "    description: 'Manages assets'," ++ LF
    ++ js "})" ++ LF.
Proof. vm_compute. reflexivity. Qed.

Example acl_default_operations :
  snc_generate_acl_code
    {| AclRequest.table := js "x_t";
       AclRequest.operations := default_operations;
       AclRequest.roleName := None;
       AclRequest.roleImportPath := None |}
  = js "import { Acl } from '@servicenow/sdk/core'" ++ LF ++ LF
    ++ List.concat
         (map (fun op =>
                 js "Acl({" ++ LF
                 ++ js "    $id: Now.ID['x_t_" ++ op ++ js "']," ++ LF
                 ++ js "    active: true," ++ LF
                 ++ js "    type: 'record'," ++ LF
                 ++ js "    operation: '" ++ op ++ js "'," ++ LF
                 ++ js "    table: 'x_t'," ++ LF
                 ++ js "})" ++ LF ++ LF)
              [js "create"; js "read"; js "write"; js "delete"]).
Proof. vm_compute. reflexivity. Qed.

Example init_command_line :
  spawned (fun _ _ => Resolved {| stdout := js "ok"; stderr := [] |})
          (snc_init bare_process
             {| init_appName := js "Asset Tracker";
                init_scopeName := js "x_myorg_asset";
                init_template := typescript_basic;
                init_packageName := None;
                init_auth := None;
                init_directory := None |})
  = [js "npx now-sdk init --appName " ++ [34%N] ++ js "Asset Tracker"
     ++ [34%N] ++ js " --scopeName " ++ [34%N] ++ js "x_myorg_asset"
     ++ [34%N] ++ js " --template typescript.basic --auth dev252193"].
Proof. vm_compute. reflexivity. Qed.

(** ** The SDK command wrappers *)

Lemma runSdk_spawned (process : Process) (w : World)
    (command : jsstring) (dir : option jsstring) :
  spawned w (runSdk process command dir) = [command].
Proof.
  unfold runSdk. cbn [spawned].
  destruct (w command _) as [out | error]; reflexivity.
Qed.

(** Claim C1, as the code has it.  [runSdk] spawns the command once, with a
    timeout of 120000 ms.  When the subprocess succeeds the text is the
    trimmed standard output, or the trimmed standard error when the standard
    output is empty, or a fixed sentence when both are empty, and the error
    flag is left out.  When it fails the text is ["Error: "] followed by the
    error's captured standard error as it is, or by the error's message when
    nothing was captured, and the error flag is set. *)
Theorem runSdk_result (process : Process) (w : World)
    (command : jsstring) (dir : option jsstring) :
  let r := run w (runSdk process command dir) in
  spawned w (runSdk process command dir) = [command]
  /\ timeout (runSdk_options process dir) = 120000%N
  /\ match w command (runSdk_options process dir) with
     | Resolved out =>
         content r =
           [trim (if truthy (stdout out) then stdout out
                  else if truthy (stderr out) then stderr out
                  else js "Command completed successfully.")]
         /\ isError r = None
     | Rejected (ErrorObject captured message) =>
         content r =
           [js "Error: "
            ++ match captured with
               | Some e => if truthy e then e else message
               | None => message
               end]
         /\ isError r = Some true
     | Rejected (OtherValue s) =>
         content r = [js "Error: " ++ s] /\ isError r = Some true
     end.
Proof.
  cbv zeta. split; [apply runSdk_spawned | split; [reflexivity|]].
  unfold runSdk, runSdk_options. cbn [run].
  destruct (w command _) as [out | [captured message | s]];
    cbn [run content isError]; split; reflexivity.
Qed.

(** Claim C1 as the specification words it fails twice: a successful
    command that prints [ok] and a line feed yields [ok], not the standard
    output, and a failed command whose standard error is [boom] yields
    [Error: boom], not the captured text. *)
Lemma runSdk_text_not_verbatim :
  content (run (fun _ _ => Resolved {| stdout := js "ok" ++ LF;
                                       stderr := [] |})
               (runSdk bare_process (js "npx now-sdk build") None))
    <> [js "ok" ++ LF]
  /\ content (run (fun _ _ => Rejected (ErrorObject (Some (js "boom"))
                                          (js "Command failed")))
                  (runSdk bare_process (js "npx now-sdk build") None))
       <> [js "boom"].
Proof. split; intros H; vm_compute in H; discriminate H. Qed.

(** Claim C8.  [snc_auth_add] returns without awaiting anything, so no
    subprocess is spawned in any world; its result carries no error flag and
    one text block, in which the command line
    [npx now-sdk auth --add <instance> --type <type> --alias <alias>]
    stands, with the instance name as alias when the caller gives none (or
    an empty one). *)
Theorem snc_auth_add_never_spawns (w : World) (args : AuthAddArgs) :
  let a :=
    match add_alias args with
    | Some s => if truthy s then s else add_instance args
    | None => add_instance args
    end in
  let cmd :=
    js "npx now-sdk auth --add " ++ add_instance args
    ++ js " --type " ++ AuthType_string (add_type args)
    ++ js " --alias " ++ a in
  (exists r, snc_auth_add args = Return r)
  /\ spawned w (snc_auth_add args) = []
  /\ isError (run w (snc_auth_add args)) = None
  /\ exists pre post,
       content (run w (snc_auth_add args)) = [pre ++ cmd ++ post].
Proof.
  cbv zeta. unfold snc_auth_add.
  split; [eexists; reflexivity|].
  split; [reflexivity|]. split; [reflexivity|].
  cbn [run content].
  exists (js "This command requires interactive input (username/password). Run it in your terminal:"
          ++ LF ++ LF).
  exists (LF ++ LF ++ js "Then set as default:" ++ LF
          ++ js "npx now-sdk auth --use "
          ++ opt_or_else (add_alias args) (add_instance args)).
  rewrite <- !app_assoc. reflexivity.
Qed.

(** Claim C5 at its failing inputs.  With no alias given, [snc_init] ends
    its list of arguments with [--auth] and [DEFAULT_AUTH], but [snc_install],
    [snc_dependencies] and [snc_transform] spawn a command line that names
    no alias at all.  [DEFAULT_AUTH] is the value of [SNC_DEFAULT_AUTH_ALIAS]
    when that is set and not empty, and [dev252193] otherwise. *)
Theorem deploy_tools_omit_default_auth (process : Process) (w : World) :
  spawned w (snc_install process
               {| deploy_directory := None; deploy_auth := None |})
    = [js "npx now-sdk install"]
  /\ spawned w (snc_dependencies process
                  {| deploy_directory := None; deploy_auth := None |})
       = [js "npx now-sdk dependencies"]
  /\ spawned w (snc_transform process
                  {| transform_from := None; transform_directory := None;
                     transform_auth := None |})
       = [js "npx now-sdk transform"]
  /\ (forall appName scopeName template packageName directory,
        exists parts,
          spawned w (snc_init process
                       {| init_appName := appName;
                          init_scopeName := scopeName;
                          init_template := template;
                          init_packageName := packageName;
                          init_auth := None;
                          init_directory := directory |})
          = [join (js " ")
                  (parts ++ [js "--auth " ++ DEFAULT_AUTH process])])
  /\ DEFAULT_AUTH bare_process = js "dev252193"
  /\ (forall (e : Env) (dir : jsstring) (c : codeunit) (alias : jsstring),
        DEFAULT_AUTH
          {| process_env :=
               env_set (js "SNC_DEFAULT_AUTH_ALIAS") (c :: alias) e;
             process_cwd := dir |}
        = c :: alias).
Proof.
  split; [apply runSdk_spawned|].
  split; [apply runSdk_spawned|].
  split; [apply runSdk_spawned|].
  split; [|split; [reflexivity|]].
  - intros. unfold snc_init. rewrite runSdk_spawned.
    eexists. reflexivity.
  - intros e dir c alias. unfold DEFAULT_AUTH, env_set. cbn [process_env].
    replace (JS.eqb (js "SNC_DEFAULT_AUTH_ALIAS")
                    (js "SNC_DEFAULT_AUTH_ALIAS"))
      with true by (vm_compute; reflexivity).
    reflexivity.
Qed.

(** ** Loops that append to [code], and arrays mapped with their index *)

Section Chunks.

Lemma occurs_here (chunk rest : jsstring) : occurs chunk (chunk ++ rest).
Proof. exists [], rest. reflexivity. Qed.

Lemma occurs_exact (chunk : jsstring) : occurs chunk chunk.
Proof. exists [], []. now rewrite app_nil_r. Qed.

Lemma occurs_app_r (chunk a b : jsstring) :
  occurs chunk b -> occurs chunk (a ++ b).
Proof.
  intros (pre & post & ->). exists (a ++ pre), post.
  now rewrite <- app_assoc.
Qed.

Lemma occurs_app_l (chunk a b : jsstring) :
  occurs chunk a -> occurs chunk (a ++ b).
Proof.
  intros (pre & post & ->). exists pre, (post ++ b).
  now rewrite <- !app_assoc.
Qed.

Lemma fold_left_append {A} (step : jsstring -> A -> jsstring)
    (block : A -> jsstring) :
  (forall code a, step code a = code ++ block a) ->
  forall l code, fold_left step l code = code ++ List.concat (map block l).
Proof.
  intros Hstep l. induction l as [|a l IH]; intros code; simpl.
  - now rewrite app_nil_r.
  - rewrite IH, Hstep. now rewrite <- app_assoc.
Qed.

Lemma mapi_from_shifted {A B} (g : A -> nat -> B) (l : list A) (i : nat) :
  mapi_from i (fun x j => g x (j + 1)) l
  = map (fun p => g (fst p) (snd p))
        (combine l (seq (i + 1) (List.length l))).
Proof.
  revert i. induction l as [|x l IH]; intros i; simpl; [reflexivity|].
  f_equal. apply (IH (S i)).
Qed.

Lemma mapi_from_indexed {A B} (g : A -> nat -> B) (l : list A) (i : nat) :
  mapi_from i g l
  = map (fun p => g (fst p) (snd p)) (combine l (seq i (List.length l))).
Proof.
  revert i. induction l as [|x l IH]; intros i; simpl; [reflexivity|].
  f_equal. apply IH.
Qed.

Lemma join_snoc (sep : jsstring) (l : list jsstring) (x : jsstring) :
  exists front, join sep (l ++ [x]) = front ++ x.
Proof.
  induction l as [|y l [front IH]].
  - exists []. reflexivity.
  - exists (y ++ sep ++ front).
    change ((y :: l) ++ [x]) with (y :: (l ++ [x])).
    destruct (l ++ [x]) as [|z rest] eqn:E.
    + destruct l; discriminate E.
    + cbn [join]. cbn [join] in IH. rewrite IH.
      now rewrite <- !app_assoc.
Qed.

End Chunks.

(** ** The table generator: choice columns *)

Lemma choiceEntries_numbered (indent : jsstring) (choices : StringRecord) :
  choiceEntries indent choices
  = map (choice_line indent)
        (combine choices (seq 1 (List.length choices))).
Proof.
  unfold choiceEntries, mapi.
  etransitivity;
    [exact (mapi_from_shifted
              (fun kv n => choice_line indent (kv, n)) choices 0)|].
  apply map_ext. intros [kv n]. reflexivity.
Qed.

(** Finds a chunk that is one of the operands of a right-nested chain of
    appends. *)
Ltac find_chunk :=
  rewrite <- ?app_assoc;
  repeat first [apply occurs_exact | apply occurs_here | apply occurs_app_r].

(** Claim C3.  For a column of type [choice] with a [choices] mapping of
    [n] entries, the choice block that [generateColumnCode] emits holds one
    line per entry, in the iteration order of the mapping, and its sequence
    numbers are 1, 2, ..., [n] in that order.  For the scenario of the
    specification the lines are [open: { label: 'Open', sequence: 1 }] and
    [closed: { label: 'Closed', sequence: 2 }]. *)
Theorem choice_sequence_numbers :
  (forall (number : Type) (JN : JsNumber number)
          (name label : jsstring) (mandatory : option bool)
          (maxLength : option number)
          (referenceTable defaultValue : option jsstring)
          (choices : StringRecord) (indent : jsstring),
      let col :=
        {| ColumnSpec.name := name;
           ColumnSpec.type := col_choice;
           ColumnSpec.label := label;
           ColumnSpec.mandatory := mandatory;
           ColumnSpec.maxLength := maxLength;
           ColumnSpec.referenceTable := referenceTable;
           ColumnSpec.choices := Some choices;
           ColumnSpec.defaultValue := defaultValue |} in
      let n := List.length choices in
      let numbered := combine choices (seq 1 n) in
      let block :=
        js "choices: {" ++ LF
        ++ join (js "," ++ LF) (map (choice_line indent) numbered)
        ++ js "," ++ LF ++ indent ++ js "        }" in
      map fst numbered = choices
      /\ map snd numbered = seq 1 n
      /\ choiceEntries indent choices = map (choice_line indent) numbered
      /\ (exists before, columnProps col indent = before ++ [block])
      /\ occurs block (generateColumnCode col indent))
  /\ choiceEntries []
       [(js "open", js "Open"); (js "closed", js "Closed")]
     = [js "            open: { label: 'Open', sequence: 1 }";
        js "            closed: { label: 'Closed', sequence: 2 }"]
  /\ snc_generate_table_code item_table
     = js "import { ChoiceColumn, Table } from '@servicenow/sdk/core'" ++ LF
       ++ LF
       ++ js "export const x_myorg_item = Table({" ++ LF
       ++ js "    name: 'x_myorg_item'," ++ LF
       ++ js "    label: 'Item'," ++ LF
       ++ js "    schema: {" ++ LF
       ++ js "        status: ChoiceColumn({" ++ LF
       ++ js "            label: 'Status'," ++ LF
       ++ js "            choices: {" ++ LF
       ++ js "            open: { label: 'Open', sequence: 1 }," ++ LF
       ++ js "            closed: { label: 'Closed', sequence: 2 }," ++ LF
       ++ js "        }," ++ LF
       ++ js "        })," ++ LF
       ++ js "    }," ++ LF
       ++ js "})" ++ LF.
Proof.
  split; [|split; vm_compute; reflexivity].
  intros number JN name label mandatory maxLength referenceTable
         defaultValue choices indent col n numbered block.
  assert (Hlen : List.length (seq 1 n) = List.length choices)
    by apply length_seq.
  assert (Hprops : exists before, columnProps col indent = before ++ [block]).
  { unfold columnProps.
    cbn [ColumnSpec.type ColumnSpec.choices ColumnSpec.referenceTable col].
    rewrite choiceEntries_numbered. eexists. reflexivity. }
  split; [|split; [|split; [|split]]].
  - unfold numbered. clear -Hlen. revert Hlen. generalize (seq 1 n).
    induction choices as [|c choices IH]; intros [|x l] Hl;
      try discriminate Hl; simpl; [reflexivity|].
    f_equal. apply IH. now injection Hl.
  - unfold numbered. clear -Hlen. revert Hlen. generalize (seq 1 n).
    induction choices as [|c choices IH]; intros [|x l] Hl;
      try discriminate Hl; simpl; [reflexivity|].
    f_equal. apply IH. now injection Hl.
  - apply choiceEntries_numbered.
  - exact Hprops.
  - destruct Hprops as [before Hprops].
    unfold generateColumnCode. cbv zeta. rewrite Hprops.
    destruct (join_snoc (js "," ++ LF ++ indent ++ js "            ")
                        before block) as [front Hjoin].
    clearbody block. unfold jsstring in *. rewrite Hjoin. find_chunk.
Qed.

(** ** The flow generator: one block per action *)

Lemma ends_with_exact (chunk : jsstring) : ends_with chunk chunk.
Proof. exists []. reflexivity. Qed.

Lemma ends_with_app_r (chunk a b : jsstring) :
  ends_with chunk b -> ends_with chunk (a ++ b).
Proof. intros [front ->]. exists (a ++ front). now rewrite app_assoc. Qed.

Lemma starts_with_here (chunk rest : jsstring) :
  starts_with chunk (chunk ++ rest).
Proof. exists rest. reflexivity. Qed.

Lemma starts_with_app (a chunk text : jsstring) :
  starts_with chunk text -> starts_with (a ++ chunk) (a ++ text).
Proof. intros [rest ->]. exists rest. now rewrite app_assoc. Qed.

Lemma js_append (a b : string) : js (a ++ b)%string = js a ++ js b.
Proof.
  unfold js. induction a as [|c a IH]; cbn; [reflexivity|].
  now rewrite IH.
Qed.

Lemma js_merge (a b : string) (rest : jsstring) :
  js a ++ js b ++ rest = js (a ++ b)%string ++ rest.
Proof. now rewrite js_append, <- app_assoc. Qed.

(** Joins the literals that stand side by side in a chain of appends. *)
Ltac merge_literals :=
  rewrite <- ?app_assoc;
  repeat (rewrite js_merge; cbn [String.append]).

Ltac find_start :=
  merge_literals;
  repeat first [apply starts_with_app | apply starts_with_here].

Ltac find_end :=
  rewrite <- ?app_assoc;
  repeat first [apply ends_with_exact | apply ends_with_app_r].

Section FlowLoop.

Variables flowId table : jsstring.

Lemma flow_values_append (config : StringRecord) (code : jsstring) :
  fold_left (fun code kv =>
               let '(k, v) := kv in
               if negb (JS.eqb k (js "table"))
               then code ++ js "                    " ++ k ++ js ": '"
                         ++ v ++ js "'," ++ LF
               else code)
            config code
  = code
    ++ List.concat
         (map (fun kv : jsstring * jsstring =>
                 if negb (JS.eqb (fst kv) (js "table"))
                 then js "                    " ++ fst kv ++ js ": '"
                      ++ snd kv ++ js "'," ++ LF
                 else [])
              config).
Proof.
  apply fold_left_append. intros c [k v]. cbn [fst snd].
  destruct (negb (JS.eqb k (js "table"))); [reflexivity|].
  now rewrite app_nil_r.
Qed.

Lemma flow_action_step_append (code : jsstring) (act : ActionSpec.t) :
  flow_action_step flowId table code act
  = code ++ flow_action_block flowId table act.
Proof.
  unfold flow_action_block, flow_action_step.
  destruct (ActionSpec.type act); cbv zeta;
    rewrite ?flow_values_append, ?app_nil_l, <- ?app_assoc; reflexivity.
Qed.

Lemma flow_action_block_shape (act : ActionSpec.t) :
  is_block_of flowId act (flow_action_block flowId table act).
Proof.
  unfold is_block_of, flow_action_block, flow_action_step, block_opening.
  destruct act as [[] config]; cbv zeta;
    cbn [ActionSpec.type ActionSpec.config ActionType_string];
    rewrite ?flow_values_append, ?app_nil_l, <- ?app_assoc;
    (split; [find_start | find_end]).
Qed.

End FlowLoop.

Lemma Forall2_map_image {A B} (P : A -> B -> Prop) (f : A -> B)
    (l : list A) :
  (forall a, P a (f a)) -> Forall2 P l (map f l).
Proof. intros HP. induction l; simpl; constructor; auto. Qed.

(** ** The workspace generator *)

Lemma listColumnEntries_positions (listColumns : list jsstring) :
  listColumnEntries listColumns
  = map position_line
        (combine listColumns (seq 0 (List.length listColumns))).
Proof.
  unfold listColumnEntries, mapi.
  etransitivity;
    [exact (mapi_from_indexed (fun c i => position_line (c, i))
                              listColumns 0)|].
  apply map_ext. intros [c i]. reflexivity.
Qed.

Lemma workspace_step_blocks (wsId code : jsstring) (tbl : WorkspaceTable.t) :
  workspace_step wsId code tbl
  = code ++ aw_table_block wsId tbl ++ ui_view_block tbl ++ list_block tbl.
Proof.
  unfold workspace_step, aw_table_block, ui_view_block, list_block.
  cbv zeta. rewrite listColumnEntries_positions.
  rewrite <- ?app_assoc. reflexivity.
Qed.

(** Claim C10.  The document of the workspace generator is the import line,
    exactly one [sys_aw_master_config] record, and then for each table entry
    of the request, in input order, one [sys_aw_table] record, one
    [sys_ui_view] record and one [List] block; the [n] list columns of an
    entry stand in that block in input order with the positions
    0, 1, ..., [n - 1]. *)
Theorem workspace_blocks (req : WorkspaceRequest.t) :
  let wsId := idKey (WorkspaceRequest.title req) in
  snc_generate_workspace_code req
  = js "import { Record, List } from '@servicenow/sdk/core'" ++ LF ++ LF
    ++ master_config_block (WorkspaceRequest.title req)
                           (WorkspaceRequest.urlPath req)
                           (WorkspaceRequest.description req)
    ++ List.concat
         (map (fun tbl =>
                 aw_table_block wsId tbl ++ ui_view_block tbl
                 ++ list_block tbl)
              (WorkspaceRequest.tables req))
  /\ Forall
       (fun tbl =>
          let listColumns := WorkspaceTable.listColumns tbl in
          let n := List.length listColumns in
          listColumnEntries listColumns
          = map position_line (combine listColumns (seq 0 n))
          /\ map fst (combine listColumns (seq 0 n)) = listColumns
          /\ map snd (combine listColumns (seq 0 n)) = seq 0 n)
       (WorkspaceRequest.tables req).
Proof.
  cbv zeta. split.
  - unfold snc_generate_workspace_code, master_config_block. cbv zeta.
    rewrite (fold_left_append _ _
               (workspace_step_blocks (idKey (WorkspaceRequest.title req)))).
    rewrite <- ?app_assoc. reflexivity.
  - apply Forall_forall. intros tbl _.
    split; [apply listColumnEntries_positions|].
    generalize (WorkspaceTable.listColumns tbl) as l. intros l.
    assert (Hlen : List.length (seq 0 (List.length l)) = List.length l)
      by apply length_seq.
    revert Hlen. generalize (seq 0 (List.length l)) as s.
    induction l as [|c l IH]; intros [|x s] Hl; try discriminate Hl;
      simpl; [split; reflexivity|].
    injection Hl as Hl. destruct (IH s Hl) as [-> ->]. split; reflexivity.
Qed.

(** ** Determinism of the generators *)

(** Claim C9.  Each of the seven generators returns without awaiting
    anything: it spawns nothing, and in any two worlds (two runs, whatever
    the clock, the environment or the subprocesses would give) the same
    request yields the same envelope, which is the one text block computed
    from the request and no error flag. *)
Theorem generators_deterministic (w1 w2 : World) :
  (forall (number : Type) (JN : JsNumber number)
          (req : TableRequest.t number),
      run w1 (snc_generate_table req) = run w2 (snc_generate_table req)
      /\ spawned w1 (snc_generate_table req) = []
      /\ run w1 (snc_generate_table req)
         = {| content := [snc_generate_table_code req]; isError := None |})
  /\ (forall req : FlowRequest.t,
        run w1 (snc_generate_flow req) = run w2 (snc_generate_flow req)
        /\ spawned w1 (snc_generate_flow req) = []
        /\ run w1 (snc_generate_flow req)
           = {| content := [snc_generate_flow_code req]; isError := None |})
  /\ (forall req : BusinessRuleRequest.t,
        run w1 (snc_generate_business_rule req)
        = run w2 (snc_generate_business_rule req)
        /\ spawned w1 (snc_generate_business_rule req) = []
        /\ run w1 (snc_generate_business_rule req)
           = {| content := [snc_generate_business_rule_code req];
                isError := None |})
  /\ (forall req : AclRequest.t,
        run w1 (snc_generate_acl req) = run w2 (snc_generate_acl req)
        /\ spawned w1 (snc_generate_acl req) = []
        /\ run w1 (snc_generate_acl req)
           = {| content := [snc_generate_acl_code req]; isError := None |})
  /\ (forall req : RoleRequest.t,
        run w1 (snc_generate_role req) = run w2 (snc_generate_role req)
        /\ spawned w1 (snc_generate_role req) = []
        /\ run w1 (snc_generate_role req)
           = {| content := [snc_generate_role_code req]; isError := None |})
  /\ (forall (number : Type) (JN : JsNumber number)
             (req : AppMenuRequest.t number),
        run w1 (snc_generate_app_menu req)
        = run w2 (snc_generate_app_menu req)
        /\ spawned w1 (snc_generate_app_menu req) = []
        /\ run w1 (snc_generate_app_menu req)
           = {| content := [snc_generate_app_menu_code req];
                isError := None |})
  /\ (forall req : WorkspaceRequest.t,
        run w1 (snc_generate_workspace req)
        = run w2 (snc_generate_workspace req)
        /\ spawned w1 (snc_generate_workspace req) = []
        /\ run w1 (snc_generate_workspace req)
           = {| content := [snc_generate_workspace_code req];
                isError := None |}).
Proof. repeat split. Qed.

(** By contrast a command wrapper is not deterministic in this sense: what
    [snc_build] returns follows the world. *)
Lemma snc_build_follows_world :
  run (fun _ _ => Resolved {| stdout := js "built"; stderr := [] |})
      (snc_build bare_process None)
  <> run (fun _ _ => Resolved {| stdout := js "failed"; stderr := [] |})
         (snc_build bare_process None).
Proof. intros H. vm_compute in H. discriminate H. Qed.

(** ** Keys and exported names *)

Section StraightLine.

Lemma append_if_app (x : option jsstring) (chunk : jsstring -> jsstring)
    (code : jsstring) :
  append_if x chunk code = code ++ opt_chunk x chunk.
Proof.
  unfold append_if, opt_chunk.
  destruct x as [v|]; [destruct (truthy v)|]; now rewrite ?app_nil_r.
Qed.

Lemma append_role_import_app (r p : option jsstring) (code : jsstring) :
  append_role_import r p code = code ++ append_role_import r p [].
Proof.
  unfold append_role_import.
  destruct r as [r|], p as [p|]; rewrite ?app_nil_r; try reflexivity.
  destruct (truthy r && truthy p); now rewrite ?app_nil_r.
Qed.

Lemma occurs_of_starts (chunk text : jsstring) :
  starts_with chunk text -> occurs chunk text.
Proof. intros [rest ->]. exists [], rest. reflexivity. Qed.

Lemma starts_with_exact (chunk : jsstring) : starts_with chunk chunk.
Proof. exists []. now rewrite app_nil_r. Qed.

Lemma occurs_in_concat {A} (chunk : jsstring) (block : A -> jsstring)
    (l : list A) (x : A) :
  In x l -> occurs chunk (block x) ->
  occurs chunk (List.concat (map block l)).
Proof.
  intros Hin Hx. induction l as [|y l IH]; [destruct Hin|].
  cbn [map List.concat]. destruct Hin as [-> | Hin].
  - now apply occurs_app_l.
  - apply occurs_app_r. now apply IH.
Qed.

Lemma acl_step_append (table : jsstring) (roleName : option jsstring)
    (code : jsstring) (op : Operation) :
  acl_step table roleName code op = code ++ acl_step table roleName [] op.
Proof.
  unfold acl_step. cbv zeta.
  rewrite !append_if_app, ?app_nil_l, <- ?app_assoc. reflexivity.
Qed.

Lemma menu_step_append {number} `{JsNumber number} (menuId code : jsstring)
    (mdl : MenuModule.t number) :
  menu_step menuId code mdl = code ++ menu_step menuId [] mdl.
Proof.
  unfold menu_step. cbv zeta.
  rewrite ?app_nil_l, <- ?app_assoc. reflexivity.
Qed.

Lemma idKey_suffix (seed : jsstring) (suffix : string) :
  forallb isKeyChar (js suffix) = true ->
  idKey (seed ++ js suffix) = idKey seed ++ js suffix.
Proof.
  intros Hs. now rewrite idKey_app, (idKey_fixed_on_keychars _ Hs).
Qed.

Lemma idKey_child (parent child : jsstring) :
  idKey (idKey parent ++ js "_" ++ child)
  = idKey (parent ++ js "_" ++ child).
Proof. now rewrite !idKey_app, idKey_idem. Qed.

End StraightLine.

(** Finds a chunk, itself a chain of appends, inside a chain of appends. *)
Ltac peel :=
  repeat first [apply starts_with_app | apply starts_with_here
               | apply starts_with_exact].

Ltac find_chain :=
  merge_literals;
  repeat first [solve [apply occurs_of_starts; peel] | apply occurs_app_r].

Section Keys.

Lemma role_export_name (req : RoleRequest.t) :
  starts_with
    (js "import { Role } from '@servicenow/sdk/core'" ++ LF ++ LF
     ++ js "export const " ++ role_varName req ++ js " = Role({" ++ LF)
    (snc_generate_role_code req).
Proof. unfold snc_generate_role_code. cbv zeta. find_start. Qed.

Lemma table_export_name {number} `{JsNumber number}
    (req : TableRequest.t number) :
  occurs (js "export const " ++ replaceDots (TableRequest.tableName req)
          ++ js " = Table({" ++ LF)
         (snc_generate_table_code req).
Proof.
  unfold snc_generate_table_code, table_varName. cbv zeta.
  rewrite append_if_app. find_chain.
Qed.

Lemma idKey_replaceDots (s : jsstring) : idKey (replaceDots s) = idKey s.
Proof.
  unfold idKey, toLowerCase, replaceNonWord, replaceDots.
  rewrite !map_map. apply map_ext. intros c.
  destruct (N.eqb_spec c 46) as [-> | Hc]; reflexivity.
Qed.

End Keys.

(** Claim C4 as the specification words it fails for the table generator:
    for the table name [X_App.Item] the exported variable is [X_App_Item],
    which the normalizer yields for no seed at all. *)
Lemma table_name_not_normalized :
  occurs (js "export const X_App_Item = Table({" ++ LF)
         (snc_generate_table_code (number := SafeInteger)
            {| TableRequest.tableName := js "X_App.Item";
               TableRequest.label := js "Item";
               TableRequest.columns := [];
               TableRequest.displayColumn := None |})
  /\ table_varName (js "X_App.Item") = js "X_App_Item"
  /\ idKey (js "X_App.Item") = js "x_app_item"
  /\ ~ (exists seed, idKey seed = js "X_App_Item").
Proof.
  split; [|split; [reflexivity | split; [reflexivity|]]].
  - exact (table_export_name (number := SafeInteger)
             {| TableRequest.tableName := js "X_App.Item";
                TableRequest.label := js "Item";
                TableRequest.columns := [];
                TableRequest.displayColumn := None |}).
  - intros [seed Hseed].
    pose proof (idKey_keychars seed) as Hk. rewrite Hseed in Hk.
    vm_compute in Hk. discriminate Hk.
Qed.

(** ** Optional fields *)

(** Brings [(... ((pre ++ o) ++ l1) ++ ...) ++ ln] to the form
    [pre ++ o ++ post]. *)
Ltac to_hole o :=
  repeat match goal with
         | |- (?X ++ ?y) ++ ?z = _ =>
             lazymatch y with
             | o => fail
             | _ => rewrite <- (app_assoc X y z)
             end
         end;
  match goal with
  | |- (?A ++ o) ++ ?z = _ => rewrite <- (app_assoc A o z); reflexivity
  end.

Section OptionalFields.

Context {number : Type} `{JsNumber number}.

Lemma columnProps_optional (col : ColumnSpec.t number) (indent : jsstring) :
  columnProps col indent
  = [js "label: '" ++ ColumnSpec.label col ++ js "'"]
    ++ match ColumnSpec.mandatory col with
       | Some true => [js "mandatory: true"]
       | _ => []
       end
    ++ match ColumnSpec.maxLength col with
       | Some n =>
           if numberToBoolean n then [js "maxLength: " ++ numberToString n]
           else []
       | None => []
       end
    ++ match ColumnSpec.defaultValue col with
       | Some d => [js "default: '" ++ d ++ js "'"]
       | None => []
       end
    ++ match ColumnSpec.type col, ColumnSpec.referenceTable col with
       | col_reference, Some r =>
           if truthy r then [js "referenceTable: '" ++ r ++ js "'"] else []
       | _, _ => []
       end
    ++ match ColumnSpec.type col, ColumnSpec.choices col with
       | col_choice, Some choices =>
           [js "choices: {" ++ LF
            ++ join (js "," ++ LF) (choiceEntries indent choices)
            ++ js "," ++ LF ++ indent ++ js "        }"]
       | _, _ => []
       end.
Proof.
  unfold columnProps. cbv zeta.
  destruct col as [name type label mandatory maxLength referenceTable
                   choices defaultValue].
  cbn [ColumnSpec.label ColumnSpec.mandatory ColumnSpec.maxLength
       ColumnSpec.defaultValue ColumnSpec.type ColumnSpec.referenceTable
       ColumnSpec.choices].
  rewrite app_nil_l.
  destruct mandatory as [[|]|];
    (destruct maxLength as [n|]; [destruct (numberToBoolean n)|]);
    destruct defaultValue as [d|];
    (assert (Href :
       forall props : list jsstring,
         match type, referenceTable with
         | col_reference, Some r =>
             if truthy r
             then props ++ [js "referenceTable: '" ++ r ++ js "'"]
             else props
         | _, _ => props
         end
         = props
           ++ match type, referenceTable with
              | col_reference, Some r =>
                  if truthy r
                  then [js "referenceTable: '" ++ r ++ js "'"] else []
              | _, _ => []
              end)
      by (intros props; destruct type, referenceTable as [r|];
          rewrite ?app_nil_r; try reflexivity;
          destruct (truthy r); now rewrite ?app_nil_r));
    rewrite Href;
    destruct type, choices as [ch|];
    rewrite ?app_nil_r, <- ?app_assoc; reflexivity.
Qed.

Lemma displayColumn_hole (tableName label : jsstring)
    (columns : list (ColumnSpec.t number)) :
  exists pre post,
    forall displayColumn : option jsstring,
      snc_generate_table_code
        {| TableRequest.tableName := tableName;
           TableRequest.label := label;
           TableRequest.columns := columns;
           TableRequest.displayColumn := displayColumn |}
      = pre
        ++ opt_chunk displayColumn
             (fun d => js "    display: '" ++ d ++ js "'," ++ LF)
        ++ post.
Proof.
  eexists. eexists. intros displayColumn.
  unfold snc_generate_table_code. cbv zeta.
  cbn [TableRequest.tableName TableRequest.label TableRequest.columns
       TableRequest.displayColumn].
  rewrite append_if_app.
  set (o := opt_chunk displayColumn _). to_hole o.
Qed.

End OptionalFields.

Lemma flow_condition_hole (name description : jsstring)
    (triggerType : TriggerType) (table : jsstring)
    (actions : list ActionSpec.t) :
  exists pre post,
    forall condition : option jsstring,
      snc_generate_flow_code
        {| FlowRequest.name := name;
           FlowRequest.description := description;
           FlowRequest.triggerType := triggerType;
           FlowRequest.table := table;
           FlowRequest.condition := condition;
           FlowRequest.actions := actions |}
      = pre
        ++ opt_chunk condition
             (fun c => js "            condition: '" ++ c ++ js "'," ++ LF)
        ++ post.
Proof.
  eexists. eexists. intros condition.
  unfold snc_generate_flow_code. cbv zeta.
  cbn [FlowRequest.name FlowRequest.description FlowRequest.triggerType
       FlowRequest.table FlowRequest.condition FlowRequest.actions].
  rewrite append_if_app.
  rewrite (fold_left_append _ _ (flow_action_step_append (idKey name) table)).
  set (o := opt_chunk condition _). to_hole o.
Qed.

Lemma rule_condition_hole (name table : jsstring) (when : When)
    (actions : list RuleAction) (scriptBody : jsstring)
    (scriptFunctionName : option jsstring) :
  exists pre post,
    forall condition : option jsstring,
      snc_generate_business_rule_code
        {| BusinessRuleRequest.name := name;
           BusinessRuleRequest.table := table;
           BusinessRuleRequest.when := when;
           BusinessRuleRequest.actions := actions;
           BusinessRuleRequest.condition := condition;
           BusinessRuleRequest.scriptBody := scriptBody;
           BusinessRuleRequest.scriptFunctionName := scriptFunctionName |}
      = pre
        ++ opt_chunk condition
             (fun c => js "    filter_condition: '" ++ c ++ js "'," ++ LF)
        ++ post.
Proof.
  eexists. eexists. intros condition.
  unfold snc_generate_business_rule_code. cbv zeta.
  cbn [BusinessRuleRequest.name BusinessRuleRequest.table
       BusinessRuleRequest.when BusinessRuleRequest.actions
       BusinessRuleRequest.condition BusinessRuleRequest.scriptBody
       BusinessRuleRequest.scriptFunctionName].
  rewrite append_if_app.
  set (o := opt_chunk condition _). to_hole o.
Qed.

(** Claim C6 as the specification words it fails: [mandatory: false] is
    present in the request and gives no property, and an empty
    [displayColumn] is present and gives no line; the output is the one of
    the request without the field. *)
Lemma present_field_not_emitted :
  columnProps (active_column (Some false)) [] = [js "label: 'Active'"]
  /\ generateColumnCode (active_column (Some false)) []
     = generateColumnCode (active_column None) []
  /\ snc_generate_table_code (flags_table (Some []))
     = snc_generate_table_code (flags_table None).
Proof. repeat split. Qed.

(** * Further properties of the command wrappers *)

Section Wrappers.

Variable process : Process.
Variable w : World.

Lemma runSdk_spawned_options (command : jsstring) (dir : option jsstring) :
  spawned_options w (runSdk process command dir)
  = [runSdk_options process dir].
Proof.
  unfold runSdk, runSdk_options. cbn [spawned_options].
  destruct (w command _) as [out | error]; reflexivity.
Qed.

Lemma join_starts (sep x : jsstring) (rest : list jsstring) :
  starts_with x (join sep (x :: rest)).
Proof.
  destruct rest as [|y rest]; cbn [join].
  - apply starts_with_exact.
  - apply starts_with_here.
Qed.

Lemma push_if_head (o : option jsstring) (item : jsstring -> jsstring)
    (x : jsstring) (l : list jsstring) :
  exists rest, push_if o item (x :: l) = x :: rest.
Proof.
  unfold push_if. destruct o as [v|]; [destruct (truthy v)|];
    eexists; reflexivity.
Qed.

Lemma starts_with_trans (a b c : jsstring) :
  starts_with a b -> starts_with b c -> starts_with a c.
Proof.
  intros [r1 ->] [r2 ->]. exists (r1 ++ r2). now rewrite app_assoc.
Qed.

(** Every wrapper that runs the SDK spawns exactly one subprocess, whatever
    its arguments are; the command line starts with [npx now-sdk] and the
    tool's subcommand, and the subprocess gets the options of [runSdk] for
    the caller's directory. *)
Theorem wrappers_spawn_one_sdk_command :
  (spawned w (snc_auth_list process) = [js "npx now-sdk auth --list"]
   /\ spawned_options w (snc_auth_list process)
      = [runSdk_options process None])
  /\ (forall alias,
        spawned w (snc_auth_use process alias)
        = [js "npx now-sdk auth --use " ++ alias]
        /\ spawned_options w (snc_auth_use process alias)
           = [runSdk_options process None])
  /\ (forall args, exists cmd,
        spawned w (snc_init process args) = [cmd]
        /\ starts_with (js "npx now-sdk init") cmd
        /\ spawned_options w (snc_init process args)
           = [runSdk_options process (init_directory args)])
  /\ (forall directory,
        spawned w (snc_build process directory) = [js "npx now-sdk build"]
        /\ spawned_options w (snc_build process directory)
           = [runSdk_options process directory])
  /\ (forall args, exists cmd,
        spawned w (snc_install process args) = [cmd]
        /\ starts_with (js "npx now-sdk install") cmd
        /\ spawned_options w (snc_install process args)
           = [runSdk_options process (deploy_directory args)])
  /\ (forall args, exists cmd,
        spawned w (snc_dependencies process args) = [cmd]
        /\ starts_with (js "npx now-sdk dependencies") cmd
        /\ spawned_options w (snc_dependencies process args)
           = [runSdk_options process (deploy_directory args)])
  /\ (forall args, exists cmd,
        spawned w (snc_transform process args) = [cmd]
        /\ starts_with (js "npx now-sdk transform") cmd
        /\ spawned_options w (snc_transform process args)
           = [runSdk_options process (transform_directory args)])
  /\ (forall directory,
        spawned w (snc_clean process directory) = [js "npx now-sdk clean"]
        /\ spawned_options w (snc_clean process directory)
           = [runSdk_options process directory]).
Proof.
  split; [split; [apply runSdk_spawned | apply runSdk_spawned_options]|].
  split; [intros; split;
          [apply runSdk_spawned | apply runSdk_spawned_options]|].
  split.
  { intros args. unfold snc_init. eexists.
    split; [apply runSdk_spawned|].
    split; [|apply runSdk_spawned_options].
    cbv zeta.
    destruct (push_if_head (init_packageName args)
                (fun v => js "--packageName " ++ [34%N] ++ v ++ [34%N])
                (js "npx now-sdk init")
                [js "--appName " ++ [34%N] ++ init_appName args ++ [34%N];
                 js "--scopeName " ++ [34%N] ++ init_scopeName args
                 ++ [34%N];
                 js "--template " ++ Template_string (init_template args)])
      as [rest ->].
    apply join_starts. }
  split; [intros; split;
          [apply runSdk_spawned | apply runSdk_spawned_options]|].
  split.
  { intros args. unfold snc_install. eexists.
    split; [apply runSdk_spawned|].
    split; [|apply runSdk_spawned_options].
    cbv zeta.
    destruct (push_if_head (deploy_auth args) (fun v => js "--auth " ++ v)
                (js "npx now-sdk install") []) as [rest ->].
    apply join_starts. }
  split.
  { intros args. unfold snc_dependencies. eexists.
    split; [apply runSdk_spawned|].
    split; [|apply runSdk_spawned_options].
    cbv zeta.
    destruct (push_if_head (deploy_auth args) (fun v => js "--auth " ++ v)
                (js "npx now-sdk dependencies") []) as [rest ->].
    apply join_starts. }
  split.
  { intros args. unfold snc_transform. eexists.
    split; [apply runSdk_spawned|].
    split; [|apply runSdk_spawned_options].
    cbv zeta.
    destruct (push_if_head (transform_from args)
                (fun v => js "--from " ++ [34%N] ++ v ++ [34%N])
                (js "npx now-sdk transform") []) as [rest1 ->].
    destruct (push_if_head (transform_auth args)
                (fun v => js "--auth " ++ v)
                (js "npx now-sdk transform") rest1) as [rest ->].
    apply join_starts. }
  intros; split; [apply runSdk_spawned | apply runSdk_spawned_options].
Qed.

End Wrappers.

Section ExecOptionsFacts.

Lemma eqb_neq (a b : jsstring) : a <> b -> JS.eqb a b = false.
Proof.
  intros Hab. unfold JS.eqb.
  destruct (list_eq_dec N.eq_dec a b) as [E|_]; [contradiction | reflexivity].
Qed.

Lemma eqb_refl (a : jsstring) : JS.eqb a a = true.
Proof.
  unfold JS.eqb.
  destruct (list_eq_dec N.eq_dec a a) as [_|E]; [reflexivity | contradiction].
Qed.

End ExecOptionsFacts.


(** ** White space in the result of a command *)

Section Trim.

Lemma trimStart_clean (s : jsstring) :
  match trimStart s with
  | c :: _ => isTrimmable c = false
  | [] => True
  end.
Proof.
  induction s as [|c s IH]; cbn [trimStart]; [exact I|].
  destruct (isTrimmable c) eqn:E; [exact IH | exact E].
Qed.

Lemma trimStart_fixed (c : codeunit) (s : jsstring) :
  isTrimmable c = false -> trimStart (c :: s) = c :: s.
Proof. intros E. cbn [trimStart]. now rewrite E. Qed.

Lemma trimStart_snoc (s : jsstring) (c : codeunit) :
  isTrimmable c = false -> trimStart (s ++ [c]) = trimStart s ++ [c].
Proof.
  intros E. induction s as [|x s IH]; cbn [app trimStart].
  - now rewrite E.
  - destruct (isTrimmable x); [exact IH | reflexivity].
Qed.

Lemma trimEnd_cons (c : codeunit) (s : jsstring) :
  isTrimmable c = false -> trimEnd (c :: s) = c :: trimEnd s.
Proof.
  intros E. unfold trimEnd. cbn [rev].
  rewrite (trimStart_snoc _ _ E), rev_app_distr. reflexivity.
Qed.

Lemma trimEnd_clean (s : jsstring) :
  match rev (trimEnd s) with
  | c :: _ => isTrimmable c = false
  | [] => True
  end.
Proof. unfold trimEnd. rewrite rev_involutive. apply trimStart_clean. Qed.

Lemma trimEnd_fixed (s : jsstring) :
  match rev s with
  | c :: _ => isTrimmable c = false
  | [] => True
  end ->
  trimEnd s = s.
Proof.
  unfold trimEnd. destruct (rev s) as [|c r] eqn:E; intros Hc.
  - cbn. rewrite <- (rev_involutive s), E. reflexivity.
  - rewrite (trimStart_fixed _ _ Hc), <- E. apply rev_involutive.
Qed.

Lemma trim_head_clean (s : jsstring) :
  match trim s with
  | c :: _ => isTrimmable c = false
  | [] => True
  end.
Proof.
  unfold trim. pose proof (trimStart_clean s) as Hs.
  destruct (trimStart s) as [|c r]; [exact I|].
  rewrite (trimEnd_cons _ _ Hs). exact Hs.
Qed.

Lemma trim_no_outer_space (s : jsstring) : no_outer_space (trim s) = true.
Proof.
  unfold no_outer_space. apply andb_true_intro. split.
  - pose proof (trim_head_clean s) as Hh.
    destruct (trim s) as [|c r]; [reflexivity | now rewrite Hh].
  - unfold trim. pose proof (trimEnd_clean (trimStart s)) as Ht.
    destruct (rev (trimEnd (trimStart s))) as [|c r];
      [reflexivity | now rewrite Ht].
Qed.

Lemma trim_idempotent (s : jsstring) : trim (trim s) = trim s.
Proof.
  pose proof (trim_head_clean s) as Hh.
  assert (Ht : trimEnd (trim s) = trim s).
  { apply trimEnd_fixed. unfold trim. apply trimEnd_clean. }
  unfold trim at 1.
  destruct (trim s) as [|c r] eqn:E; [reflexivity|].
  rewrite (trimStart_fixed _ _ Hh). exact Ht.
Qed.

Lemma trim_all_space (s : jsstring) :
  forallb isTrimmable s = true -> trim s = [].
Proof.
  intros Hs. unfold trim.
  assert (Hstart : trimStart s = []).
  { induction s as [|c s IH]; [reflexivity|].
    cbn [forallb] in Hs. apply andb_prop in Hs. destruct Hs as [Hc Hs].
    cbn [trimStart]. rewrite Hc. now apply IH. }
  rewrite Hstart. reflexivity.
Qed.

End Trim.

(** When the command succeeds, the text [runSdk] returns has no white space
    or line terminator at its start or at its end, and trimming it again
    changes nothing. *)
Theorem runSdk_success_text_trimmed (process : Process)
    (command : jsstring) (dir : option jsstring) (out : ExecOutput) :
  exists t,
    content (run (fun _ _ => Resolved out) (runSdk process command dir))
    = [t]
    /\ no_outer_space t = true
    /\ trim t = t.
Proof.
  unfold runSdk. cbn [run content]. eexists.
  split; [reflexivity|].
  split; [apply trim_no_outer_space | apply trim_idempotent].
Qed.

(** A successful command that prints only white space yields the empty
    text: the sentence [Command completed successfully.] stands in only when
    both streams are empty strings. *)
Theorem runSdk_blank_output (process : Process) (command : jsstring)
    (dir : option jsstring) (c : codeunit) (blank err : jsstring) :
  forallb isTrimmable (c :: blank) = true ->
  content (run (fun _ _ => Resolved {| stdout := c :: blank;
                                       stderr := err |})
               (runSdk process command dir))
  = [[]].
Proof.
  intros Hb. unfold runSdk. cbn [run content stdout or_else truthy].
  now rewrite (trim_all_space _ Hb).
Qed.

Lemma runSdk_blank_output_witness :
  forallb isTrimmable (10%N :: js "  ") = true
  /\ content (run (fun _ _ => Resolved {| stdout := 10%N :: js "  ";
                                          stderr := js "warning" |})
                  (runSdk bare_process (js "npx now-sdk build") None))
     = [[]].
Proof.
  split; [reflexivity|].
  apply (runSdk_blank_output bare_process (js "npx now-sdk build") None
           10%N (js "  ") (js "warning")).
  reflexivity.
Defined.

(** ** The command lines of the wrappers *)

(** [snc_install] and [snc_dependencies] pass a given, non-empty alias on
    as [--auth <alias>] after the subcommand; an empty alias is dropped like
    a missing one.  [snc_transform] puts [--from], with its value in double
    quotes, before [--auth], each only when given and not empty. *)
Theorem deploy_command_lines (process : Process) (w : World)
    (directory from auth : option jsstring) :
  let auth_flag := opt_chunk auth (fun a => js " --auth " ++ a) in
  let from_flag :=
    opt_chunk from (fun f => js " --from " ++ [34%N] ++ f ++ [34%N]) in
  spawned w (snc_install process
               {| deploy_directory := directory; deploy_auth := auth |})
  = [js "npx now-sdk install" ++ auth_flag]
  /\ spawned w (snc_dependencies process
                  {| deploy_directory := directory; deploy_auth := auth |})
     = [js "npx now-sdk dependencies" ++ auth_flag]
  /\ spawned w (snc_transform process
                  {| transform_from := from;
                     transform_directory := directory;
                     transform_auth := auth |})
     = [js "npx now-sdk transform" ++ from_flag ++ auth_flag].
Proof.
  cbv zeta. unfold snc_install, snc_dependencies, snc_transform.
  cbv zeta. rewrite !runSdk_spawned.
  cbn [deploy_auth transform_from transform_auth].
  destruct auth as [[|c a]|], from as [[|d f]|];
    cbn [push_if truthy opt_chunk join app];
    rewrite <- ?app_assoc, ?app_nil_r; repeat split.
Qed.

(** The command line of [snc_init]: the application name, the scope name
    and the package name go in double quotes, the package name only when
    given and not empty, and [--auth] always comes last, with the caller's
    alias when it is given and not empty and with [DEFAULT_AUTH]
    otherwise. *)
Theorem init_command_line_shape (process : Process) (w : World)
    (args : InitArgs) :
  spawned w (snc_init process args)
  = [js "npx now-sdk init --appName " ++ [34%N] ++ init_appName args
     ++ [34%N] ++ js " --scopeName " ++ [34%N] ++ init_scopeName args
     ++ [34%N] ++ js " --template " ++ Template_string (init_template args)
     ++ opt_chunk (init_packageName args)
          (fun p => js " --packageName " ++ [34%N] ++ p ++ [34%N])
     ++ js " --auth "
     ++ match init_auth args with
        | Some (c :: a) => c :: a
        | Some [] => DEFAULT_AUTH process
        | None => DEFAULT_AUTH process
        end].
Proof.
  unfold snc_init. cbv zeta. rewrite runSdk_spawned.
  destruct (init_packageName args) as [[|c p]|],
           (init_auth args) as [[|d a]|];
    cbn [push_if truthy opt_chunk join app opt_or_else or_else];
    rewrite <- ?app_assoc, ?app_nil_r; cbn [app];
    rewrite <- ?app_assoc; reflexivity.
Qed.


(** * Further properties of the generators *)

(** ** Access controls *)

Lemma acl_code_blocks (table : jsstring)
    (roleName roleImportPath : option jsstring)
    (operations : list Operation) :
  snc_generate_acl_code
    {| AclRequest.table := table;
       AclRequest.operations := operations;
       AclRequest.roleName := roleName;
       AclRequest.roleImportPath := roleImportPath |}
  = js "import { Acl } from '@servicenow/sdk/core'" ++ LF
    ++ append_role_import roleName roleImportPath [] ++ LF
    ++ List.concat (map (acl_step table roleName []) operations).
Proof.
  unfold snc_generate_acl_code. cbv zeta.
  cbn [AclRequest.table AclRequest.operations AclRequest.roleName
       AclRequest.roleImportPath].
  rewrite (fold_left_append _ _ (acl_step_append table roleName)).
  rewrite append_role_import_app, <- ?app_assoc. reflexivity.
Qed.

(** The two role fields of the ACL generator are gated apart: the import
    line needs both the role name and the import path, the [roles] line of
    each block needs the role name only.  So a role name without a path
    gives blocks that name the role under a document that never imports
    it, and a path without a role name leaves no trace at all. *)
Theorem acl_role_without_import (table : jsstring) (c : codeunit)
    (role path : jsstring) (operations : list Operation) :
  let named p :=
    {| AclRequest.table := table;
       AclRequest.operations := operations;
       AclRequest.roleName := Some (c :: role);
       AclRequest.roleImportPath := p |} in
  let unnamed p :=
    {| AclRequest.table := table;
       AclRequest.operations := operations;
       AclRequest.roleName := None;
       AclRequest.roleImportPath := p |} in
  let blocks := map (acl_step table (Some (c :: role)) []) operations in
  snc_generate_acl_code (named None)
  = js "import { Acl } from '@servicenow/sdk/core'" ++ LF ++ LF
    ++ List.concat blocks
  /\ snc_generate_acl_code (named (Some [])) = snc_generate_acl_code (named None)
  /\ Forall (occurs (js "    roles: [" ++ (c :: role) ++ js "]," ++ LF)) blocks
  /\ snc_generate_acl_code (unnamed (Some path))
     = snc_generate_acl_code (unnamed None).
Proof.
  cbv zeta.
  split; [|split; [|split]].
  - rewrite acl_code_blocks. reflexivity.
  - rewrite !acl_code_blocks. reflexivity.
  - apply Forall_forall. intros block Hin.
    apply in_map_iff in Hin. destruct Hin as (op & <- & _).
    unfold acl_step. cbv zeta.
    rewrite append_if_app, ?app_nil_l. cbn [opt_chunk truthy].
    find_chain.
  - rewrite !acl_code_blocks. reflexivity.
Qed.

(** ** Navigation menus *)

(** After the menu itself, the menu generator emits one [sys_app_module]
    record per module, in the order of the request; each record carries the
    key made from the menu title and the module title, the module's own
    title, and points back to the exported menu through [<menuId>.$id]. *)
Theorem menu_one_record_per_module (number : Type) (JN : JsNumber number)
    (title description : jsstring)
    (roleName roleImportPath : option jsstring) :
  exists header,
    forall modules : list (MenuModule.t number),
      let menuId := idKey title in
      let blocks := map (menu_step menuId []) modules in
      snc_generate_app_menu_code
        {| AppMenuRequest.title := title;
           AppMenuRequest.description := description;
           AppMenuRequest.modules := modules;
           AppMenuRequest.roleName := roleName;
           AppMenuRequest.roleImportPath := roleImportPath |}
      = header ++ List.concat blocks
      /\ List.length blocks = List.length modules
      /\ Forall2
           (fun mdl block =>
              block
              = js "Record({" ++ LF
                ++ js "    table: 'sys_app_module'," ++ LF
                ++ js "    $id: Now.ID['"
                ++ idKey (title ++ js "_" ++ MenuModule.title mdl)
                ++ js "']," ++ LF
                ++ js "    data: {" ++ LF
                ++ js "        title: '" ++ MenuModule.title mdl ++ js "',"
                ++ LF
                ++ js "        active: true," ++ LF
                ++ js "        application: " ++ menuId ++ js ".$id," ++ LF
                ++ js "        link_type: '"
                ++ LinkType_string (MenuModule.linkType mdl) ++ js "'," ++ LF
                ++ js "        name: '" ++ MenuModule.table mdl ++ js "',"
                ++ LF
                ++ js "        order: "
                ++ numberToString (MenuModule.order mdl) ++ js "," ++ LF
                ++ js "        override_menu_roles: false," ++ LF
                ++ js "        require_confirmation: false," ++ LF
                ++ js "        uncancelable: false," ++ LF
                ++ js "    }," ++ LF
                ++ js "})" ++ LF ++ LF)
           modules blocks.
Proof.
  eexists. intros modules menuId blocks.
  split; [|split].
  - unfold snc_generate_app_menu_code. cbv zeta.
    cbn [AppMenuRequest.title AppMenuRequest.description
         AppMenuRequest.modules AppMenuRequest.roleName
         AppMenuRequest.roleImportPath].
    rewrite (fold_left_append _ _ (menu_step_append (idKey title))).
    fold menuId. fold blocks. reflexivity.
  - apply length_map.
  - apply Forall2_map_image. intros mdl.
    unfold menu_step, menu_modId, menuId. cbv zeta.
    rewrite idKey_child, ?app_nil_l, <- ?app_assoc. reflexivity.
Qed.

(** ** Business rules *)

(** The function the business-rule generator declares is the one the rule
    refers to in [script:]: the caller's [scriptFunctionName] when it is
    given and not empty, and otherwise the rule's key followed by
    [Script]. *)
Theorem business_rule_script_name (req : BusinessRuleRequest.t) :
  let fnName :=
    match BusinessRuleRequest.scriptFunctionName req with
    | Some (c :: f) => c :: f
    | Some [] => idKey (BusinessRuleRequest.name req) ++ js "Script"
    | None => idKey (BusinessRuleRequest.name req) ++ js "Script"
    end in
  let code := snc_generate_business_rule_code req in
  occurs (js "function " ++ fnName ++ js "(current: GlideRecord): void {" ++ LF
          ++ js "    " ++ BusinessRuleRequest.scriptBody req ++ LF
          ++ js "}" ++ LF)
         code
  /\ ends_with (js "    script: " ++ fnName ++ js "," ++ LF
                ++ js "    abort_action: false," ++ LF
                ++ js "})" ++ LF)
               code.
Proof.
  cbv zeta. unfold snc_generate_business_rule_code. cbv zeta.
  rewrite append_if_app.
  destruct (BusinessRuleRequest.scriptFunctionName req) as [[|c f]|];
    cbn [opt_or_else or_else truthy];
    (split; [find_chain | find_end]).
Qed.

(** ** Flow actions *)

Lemma concat_map_filter {A} (keep : A -> bool) (f : A -> jsstring)
    (l : list A) :
  List.concat (map (fun a => if keep a then f a else []) l)
  = List.concat (map f (filter keep l)).
Proof.
  induction l as [|a l IH]; [reflexivity|].
  cbn [map List.concat filter]. destruct (keep a); cbn [map List.concat app].
  - now rewrite IH.
  - exact IH.
Qed.

(** The block of an [updateRecord] action: the [table] entry of the
    configuration, when it is there and not empty, replaces the flow's table
    as [table_name] and is never listed among the values; every other entry
    of the configuration becomes one line of [values], in the iteration
    order of the configuration. *)
Theorem update_record_values (flowId table : jsstring)
    (config : StringRecord) :
  flow_action_block flowId table
    {| ActionSpec.type := updateRecord; ActionSpec.config := config |}
  = js "        wfa.action(" ++ LF
    ++ js "            action.core.updateRecord," ++ LF
    ++ js "            { $id: Now.ID['" ++ idKey (flowId ++ js "_updateRecord")
    ++ js "'] }," ++ LF
    ++ js "            {" ++ LF
    ++ js "                table_name: '"
    ++ match prop (js "table") config with
       | Some (c :: t) => c :: t
       | Some [] => table
       | None => table
       end
    ++ js "'," ++ LF
    ++ js "                // @ts-ignore - sys_id is a system column" ++ LF
    ++ js "                record: wfa.dataPill(params.trigger.current.sys_id, 'reference'),"
    ++ LF
    ++ js "                values: {" ++ LF
    ++ List.concat
         (map value_line
              (filter (fun kv => negb (JS.eqb (fst kv) (js "table")))
                      config))
    ++ js "                }," ++ LF
    ++ js "            }" ++ LF
    ++ js "        )" ++ LF ++ LF.
Proof.
  unfold flow_action_block, flow_action_step, flow_actId. cbv zeta.
  cbn [ActionSpec.type ActionSpec.config ActionType_string].
  rewrite flow_values_append.
  rewrite (concat_map_filter
             (fun kv => negb (JS.eqb (fst kv) (js "table"))) value_line).
  assert (Htable :
    opt_or_else (prop (js "table") config) table
    = match prop (js "table") config with
      | Some (c :: t) => c :: t
      | Some [] => table
      | None => table
      end)
    by (destruct (prop (js "table") config) as [[|c t]|]; reflexivity).
  rewrite Htable, ?app_nil_l, <- ?app_assoc. reflexivity.
Qed.

(** A [log] action whose configuration has no [level] and no [message], or
    has them as empty strings, logs [Flow executed] at level [info];
    whatever else the configuration holds is ignored. *)
Theorem log_action_defaults (flowId table : jsstring)
    (config : StringRecord) :
  truthy_opt (prop (js "level") config) = false ->
  truthy_opt (prop (js "message") config) = false ->
  flow_action_block flowId table
    {| ActionSpec.type := log; ActionSpec.config := config |}
  = js "        wfa.action(" ++ LF
    ++ js "            action.core.log," ++ LF
    ++ js "            { $id: Now.ID['" ++ idKey (flowId ++ js "_log")
    ++ js "'] }," ++ LF
    ++ js "            {" ++ LF
    ++ js "                log_level: 'info'," ++ LF
    ++ js "                log_message: 'Flow executed'," ++ LF
    ++ js "            }" ++ LF
    ++ js "        )" ++ LF ++ LF.
Proof.
  intros Hlevel Hmessage.
  unfold flow_action_block, flow_action_step, flow_actId. cbv zeta.
  cbn [ActionSpec.type ActionSpec.config ActionType_string].
  assert (Hdefault : forall o d, truthy_opt o = false -> opt_or_else o d = d).
  { intros [[|c v]|] d Ho; try reflexivity. discriminate Ho. }
  rewrite (Hdefault _ _ Hlevel), (Hdefault _ _ Hmessage).
  rewrite ?app_nil_l. merge_literals. reflexivity.
Qed.

Lemma log_action_defaults_witness :
  truthy_opt (prop (js "level")
                   [(js "level", []); (js "note", js "kept out")]) = false
  /\ truthy_opt (prop (js "message")
                      [(js "level", []); (js "note", js "kept out")]) = false
  /\ occurs (js "                log_level: 'info'," ++ LF
             ++ js "                log_message: 'Flow executed'," ++ LF)
            (flow_action_block (js "my_flow") (js "x_t")
               {| ActionSpec.type := log;
                  ActionSpec.config :=
                    [(js "level", []); (js "note", js "kept out")] |}).
Proof.
  split; [reflexivity|]. split; [reflexivity|].
  rewrite (log_action_defaults (js "my_flow") (js "x_t")
             [(js "level", []); (js "note", js "kept out")]
             eq_refl eq_refl).
  find_chain.
Defined.

(** The [$id] key of an action depends on the flow and on the action's
    type only, so the actions of one flow share at most four keys: two
    actions of the same type get the same key. *)
Theorem flow_action_keys_collide (flowId : jsstring)
    (actions : list ActionSpec.t) :
  incl (map (flow_actId flowId) actions) (flow_action_keys flowId)
  /\ List.length
       (nodup (list_eq_dec N.eq_dec) (map (flow_actId flowId) actions))
     <= 4
  /\ (forall (t : ActionType) (config config' : StringRecord),
        flow_actId flowId {| ActionSpec.type := t;
                             ActionSpec.config := config |}
        = flow_actId flowId {| ActionSpec.type := t;
                               ActionSpec.config := config' |}).
Proof.
  assert (Hincl : incl (map (flow_actId flowId) actions)
                       (flow_action_keys flowId)).
  { intros k Hk. apply in_map_iff in Hk. destruct Hk as (act & <- & _).
    unfold flow_actId, flow_action_keys.
    destruct (ActionSpec.type act); cbn [map In]; auto. }
  split; [exact Hincl|]. split; [|reflexivity].
  change 4 with (List.length (flow_action_keys flowId)).
  apply NoDup_incl_length; [apply NoDup_nodup|].
  intros k Hk. apply Hincl. now apply nodup_In in Hk.
Qed.

(** ** The imports of a table *)

Section Sorting.

Lemma string_ltb_irrefl (a : jsstring) : string_ltb a a = false.
Proof.
  induction a as [|x a IH]; [reflexivity|].
  cbn [string_ltb]. now rewrite N.ltb_irrefl.
Qed.

Lemma string_ltb_trans (a b c : jsstring) :
  string_ltb a b = true -> string_ltb b c = true -> string_ltb a c = true.
Proof.
  revert b c. induction a as [|x a IH]; intros [|y b] [|z c];
    cbn [string_ltb]; try discriminate; try reflexivity.
  destruct (N.ltb_spec x y) as [Hxy|Hxy].
  - intros _. destruct (N.ltb_spec y z) as [Hyz|Hyz].
    + intros _. destruct (N.ltb_spec x z); [reflexivity | lia].
    + destruct (N.ltb_spec z y) as [Hzy|Hzy]; [discriminate|].
      intros _. destruct (N.ltb_spec x z); [reflexivity | lia].
  - destruct (N.ltb_spec y x) as [Hyx|Hyx]; [discriminate|].
    intros Hab. destruct (N.ltb_spec y z) as [Hyz|Hyz].
    + intros _. destruct (N.ltb_spec x z); [reflexivity | lia].
    + destruct (N.ltb_spec z y) as [Hzy|Hzy]; [discriminate|].
      intros Hbc. destruct (N.ltb_spec x z); [reflexivity|].
      destruct (N.ltb_spec z x); [lia|]. exact (IH b c Hab Hbc).
Qed.

Lemma string_ltb_total (a b : jsstring) :
  string_ltb a b = false -> string_ltb b a = false -> a = b.
Proof.
  revert b. induction a as [|x a IH]; intros [|y b];
    cbn [string_ltb]; try discriminate; try reflexivity.
  destruct (N.ltb_spec x y) as [Hxy|Hxy]; [discriminate|].
  destruct (N.ltb_spec y x) as [Hyx|Hyx]; [discriminate|].
  intros Hab Hba. assert (x = y) by lia. subst y.
  f_equal. now apply IH.
Qed.

Lemma sort_insert_In (x y : jsstring) (l : list jsstring) :
  In x (sort_insert y l) <-> x = y \/ In x l.
Proof.
  induction l as [|z l IH]; cbn [sort_insert In].
  - intuition.
  - destruct (string_ltb z y); cbn [In]; [rewrite IH|]; intuition.
Qed.

Lemma sort_In (x : jsstring) (l : list jsstring) : In x (sort l) <-> In x l.
Proof.
  unfold sort. induction l as [|y l IH]; cbn [fold_right In]; [tauto|].
  rewrite sort_insert_In, IH. intuition.
Qed.

Lemma sort_insert_sorted (y : jsstring) (l : list jsstring) :
  ~ In y l -> StronglySorted string_lt l ->
  StronglySorted string_lt (sort_insert y l).
Proof.
  induction l as [|z l IH]; intros Hy Hl; cbn [sort_insert].
  - constructor; constructor.
  - inversion Hl as [|? ? Hl' Hz]; subst.
    destruct (string_ltb z y) eqn:Hzy.
    + constructor; [apply IH; [intros Hin; apply Hy; now right | exact Hl']|].
      apply Forall_forall. intros x Hx. apply sort_insert_In in Hx.
      destruct Hx as [-> | Hx]; [exact Hzy|].
      rewrite Forall_forall in Hz. now apply Hz.
    + assert (Hyz : string_lt y z).
      { unfold string_lt. destruct (string_ltb y z) eqn:E; [reflexivity|].
        exfalso. apply Hy. left. now apply string_ltb_total. }
      constructor; [exact Hl|].
      constructor; [exact Hyz|].
      rewrite Forall_forall in Hz |- *. intros x Hx.
      exact (string_ltb_trans _ _ _ Hyz (Hz x Hx)).
Qed.

Lemma sort_sorted (l : list jsstring) :
  NoDup l -> StronglySorted string_lt (sort l).
Proof.
  unfold sort. induction l as [|y l IH]; intros Hl; cbn [fold_right].
  - constructor.
  - inversion Hl as [|? ? Hy Hl']; subst.
    apply sort_insert_sorted; [|now apply IH].
    intros Hin. apply Hy. exact (proj1 (sort_In y l) Hin).
Qed.

Lemma sorted_NoDup (l : list jsstring) :
  StronglySorted string_lt l -> NoDup l.
Proof.
  induction 1 as [|x l Hl IH Hx]; constructor; [|exact IH].
  intros Hin. rewrite Forall_forall in Hx. specialize (Hx x Hin).
  unfold string_lt in Hx. now rewrite string_ltb_irrefl in Hx.
Qed.

Lemma sorted_unique (l1 l2 : list jsstring) :
  StronglySorted string_lt l1 -> StronglySorted string_lt l2 ->
  (forall x, In x l1 <-> In x l2) -> l1 = l2.
Proof.
  intros H1. revert l2.
  induction H1 as [|a l1 Hl1 IH Ha]; intros l2 H2 Hsame.
  - destruct l2 as [|b l2]; [reflexivity|].
    exfalso. apply (proj2 (Hsame b)). now left.
  - destruct H2 as [|b l2 Hl2 Hb].
    + exfalso. apply (proj1 (Hsame a)). now left.
    + rewrite Forall_forall in Ha, Hb.
      assert (Hirr : forall x, ~ string_lt x x)
        by (intros x Hx; unfold string_lt in Hx;
            now rewrite string_ltb_irrefl in Hx).
      assert (Hab : a = b).
      { destruct (proj1 (Hsame a) (or_introl eq_refl)) as [E | Hin];
          [now symmetry|].
        destruct (proj2 (Hsame b) (or_introl eq_refl)) as [E | Hin'];
          [exact E|].
        exfalso. apply (Hirr a).
        exact (string_ltb_trans _ _ _ (Ha b Hin') (Hb a Hin)). }
      subst b. f_equal. apply IH; [exact Hl2|].
      intros x. split; intros Hx.
      * destruct (proj1 (Hsame x) (or_intror Hx)) as [E | Hin]; [|exact Hin].
        subst x. exfalso. exact (Hirr a (Ha a Hx)).
      * destruct (proj2 (Hsame x) (or_intror Hx)) as [E | Hin]; [|exact Hin].
        subst x. exfalso. exact (Hirr a (Hb a Hx)).
Qed.

Lemma set_add_In (x y : jsstring) (s : list jsstring) :
  In x (set_add y s) <-> x = y \/ In x s.
Proof.
  unfold set_add. destruct (existsb (JS.eqb y) s) eqn:E.
  - split; [now right|]. intros [-> | Hx]; [|exact Hx].
    apply existsb_exists in E. destruct E as (z & Hz & Hyz).
    unfold JS.eqb in Hyz.
    destruct (list_eq_dec N.eq_dec y z) as [-> | _];
      [exact Hz | discriminate Hyz].
  - rewrite in_app_iff. cbn [In]. intuition.
Qed.

Lemma set_add_NoDup (y : jsstring) (s : list jsstring) :
  NoDup s -> NoDup (set_add y s).
Proof.
  intros Hs. unfold set_add. destruct (existsb (JS.eqb y) s) eqn:E;
    [exact Hs|].
  apply NoDup_app; [exact Hs | repeat constructor; intros [] |].
  intros x Hx [Exy | []].
  assert (Ht : existsb (JS.eqb y) s = true)
    by (apply existsb_exists; exists x; split;
        [exact Hx | rewrite Exy; apply eqb_refl]).
  rewrite Ht in E. discriminate E.
Qed.

Lemma fold_set_add {A} (f : A -> jsstring) (l : list A)
    (s : list jsstring) :
  NoDup s ->
  NoDup (fold_left (fun imports a => set_add (f a) imports) l s)
  /\ forall x,
       In x (fold_left (fun imports a => set_add (f a) imports) l s)
       <-> In x s \/ In x (map f l).
Proof.
  revert s. induction l as [|a l IH]; intros s Hs; cbn [fold_left map In].
  - split; [exact Hs | intuition].
  - destruct (IH (set_add (f a) s) (set_add_NoDup _ _ Hs)) as [Hnd Hin].
    split; [exact Hnd|]. intros x. rewrite Hin, set_add_In. intuition.
Qed.

End Sorting.

Section TableImports.

Context {number : Type} `{JsNumber number}.

Lemma table_imports_spec (columns : list (ColumnSpec.t number)) :
  StronglySorted string_lt (table_imports columns)
  /\ forall x,
       In x (table_imports columns)
       <-> x = js "Table"
           \/ In x (map (fun col => columnTypeImport (ColumnSpec.type col))
                        columns).
Proof.
  unfold table_imports.
  destruct (fold_set_add
              (fun col : ColumnSpec.t number =>
                 columnTypeImport (ColumnSpec.type col))
              columns [js "Table"]) as [Hnd Hin].
  { repeat constructor. intros []. }
  split; [now apply sort_sorted|].
  intros x. rewrite sort_In, Hin. cbn [In]. intuition.
Qed.

(** The import line of a generated table names [Table] and the column
    function of every column of the request, and nothing else; the names
    stand in ascending order of their code units, each once. *)
Theorem table_imports_cover_columns (req : TableRequest.t number) :
  let imports := table_imports (TableRequest.columns req) in
  starts_with
    (js "import { " ++ join (js ", ") imports
     ++ js " } from '@servicenow/sdk/core'" ++ LF ++ LF)
    (snc_generate_table_code req)
  /\ In (js "Table") imports
  /\ Forall (fun col => In (columnTypeImport (ColumnSpec.type col)) imports)
            (TableRequest.columns req)
  /\ incl imports
          (js "Table"
           :: map (fun col => columnTypeImport (ColumnSpec.type col))
                  (TableRequest.columns req))
  /\ StronglySorted string_lt imports
  /\ NoDup imports.
Proof.
  cbv zeta.
  destruct (table_imports_spec (TableRequest.columns req)) as [Hsorted Hin].
  split; [|split; [|split; [|split; [|split]]]].
  - unfold snc_generate_table_code, table_imports. cbv zeta.
    rewrite append_if_app, <- ?app_assoc.
    repeat first [apply starts_with_app | apply starts_with_here].
  - apply Hin. now left.
  - apply Forall_forall. intros col Hcol. apply Hin. right.
    apply in_map_iff. now exists col.
  - intros x Hx. apply Hin in Hx. destruct Hx as [-> | Hx];
      [now left | now right].
  - exact Hsorted.
  - now apply sorted_NoDup.
Qed.

(** The import line depends on the set of column types only: requests
    whose columns have the same types, in any order and any number, import
    the same names in the same order. *)
Theorem table_imports_order_independent
    (columns columns' : list (ColumnSpec.t number)) :
  (forall t, In t (map ColumnSpec.type columns)
             <-> In t (map ColumnSpec.type columns')) ->
  table_imports columns = table_imports columns'.
Proof.
  intros Hsame.
  destruct (table_imports_spec columns) as [Hs1 Hin1].
  destruct (table_imports_spec columns') as [Hs2 Hin2].
  apply sorted_unique; [exact Hs1 | exact Hs2|].
  assert (Hhalf : forall (l l' : list (ColumnSpec.t number)) x,
            (forall t, In t (map ColumnSpec.type l)
                       -> In t (map ColumnSpec.type l')) ->
            In x (map (fun col => columnTypeImport (ColumnSpec.type col)) l) ->
            In x (map (fun col => columnTypeImport (ColumnSpec.type col)) l')).
  { intros l l' x Hll Hx. apply in_map_iff in Hx.
    destruct Hx as (col & <- & Hcol).
    assert (Ht : In (ColumnSpec.type col) (map ColumnSpec.type l'))
      by (apply Hll; apply in_map_iff; now exists col).
    apply in_map_iff in Ht. destruct Ht as (col' & Et & Hcol').
    apply in_map_iff. exists col'. now rewrite Et. }
  intros x. rewrite Hin1, Hin2. split; intros [-> | Hx]; try (now left);
    right; eapply Hhalf; try exact Hx; intros t; apply Hsame.
Qed.

End TableImports.

Lemma table_imports_order_independent_witness :
  (forall t,
      In t (map ColumnSpec.type [status_column; active_column None])
      <-> In t (map ColumnSpec.type
                    [active_column (Some true); status_column;
                     active_column None]))
  /\ table_imports [status_column; active_column None]
     = table_imports [active_column (Some true); status_column;
                      active_column None].
Proof.
  assert (Hsame :
    forall t,
      In t (map ColumnSpec.type [status_column; active_column None])
      <-> In t (map ColumnSpec.type
                    [active_column (Some true); status_column;
                     active_column None]))
    by (intros t; simpl; tauto).
  split; [exact Hsame|].
  apply (table_imports_order_independent
           [status_column; active_column None]
           [active_column (Some true); status_column; active_column None]
           Hsame).
Defined.

(** ** Exported table names and empty collections *)

(** An empty collection leaves a line with a lone comma where its entries
    would stand: a table without columns has [schema: {], [,] and [},] a
    choice column with an empty mapping has [choices: {], [,] and [}], and a
    workspace table without list columns has [columns: [], [,] and []]. *)
Theorem empty_collections_leave_comma :
  (forall (number : Type) (JN : JsNumber number)
          (tableName label : jsstring) (displayColumn : option jsstring),
      snc_generate_table_code
        {| TableRequest.tableName := tableName;
           TableRequest.label := label;
           TableRequest.columns := @nil (ColumnSpec.t number);
           TableRequest.displayColumn := displayColumn |}
      = js "import { Table } from '@servicenow/sdk/core'" ++ LF ++ LF
        ++ js "export const " ++ replaceDots tableName ++ js " = Table({" ++ LF
        ++ js "    name: '" ++ tableName ++ js "'," ++ LF
        ++ js "    label: '" ++ label ++ js "'," ++ LF
        ++ js "    schema: {" ++ LF
        ++ js "," ++ LF
        ++ js "    }," ++ LF
        ++ opt_chunk displayColumn
             (fun d => js "    display: '" ++ d ++ js "'," ++ LF)
        ++ js "})" ++ LF)
  /\ (forall (number : Type) (JN : JsNumber number)
             (name label indent : jsstring),
        generateColumnCode
          {| ColumnSpec.name := name;
             ColumnSpec.type := col_choice;
             ColumnSpec.label := label;
             ColumnSpec.mandatory := None;
             ColumnSpec.maxLength := @None number;
             ColumnSpec.referenceTable := None;
             ColumnSpec.choices := Some [];
             ColumnSpec.defaultValue := None |}
          indent
        = indent ++ js "        " ++ name ++ js ": ChoiceColumn({" ++ LF
          ++ indent ++ js "            label: '" ++ label ++ js "'," ++ LF
          ++ indent ++ js "            choices: {" ++ LF
          ++ js "," ++ LF
          ++ indent ++ js "        }," ++ LF
          ++ indent ++ js "        })")
  /\ (forall (wsId code tableName : jsstring) (primary : bool),
        ends_with
          (js "List({" ++ LF
          ++ js "    $id: Now.ID['" ++ idKey (tableName ++ js "_list")
          ++ js "']," ++ LF
          ++ js "    table: '" ++ tableName ++ js "'," ++ LF
          ++ js "    view: " ++ idKey (tableName ++ js "_view") ++ js ","
          ++ LF
          ++ js "    columns: [" ++ LF
          ++ js "," ++ LF
          ++ js "    ]," ++ LF
          ++ js "})" ++ LF ++ LF)
          (workspace_step wsId code
             {| WorkspaceTable.tableName := tableName;
                WorkspaceTable.primary := primary;
                WorkspaceTable.listColumns := [] |})).
Proof.
  split; [|split].
  - intros number JN tableName label displayColumn.
    unfold snc_generate_table_code, table_varName. cbv zeta.
    cbn [TableRequest.tableName TableRequest.label TableRequest.columns
         TableRequest.displayColumn fold_left map join].
    rewrite append_if_app.
    change (join (js ", ") (sort [js "Table"])) with (js "Table").
    rewrite ?app_nil_l. merge_literals. reflexivity.
  - intros number JN name label indent.
    unfold generateColumnCode, columnProps, choiceEntries, mapi. cbv zeta.
    cbn [ColumnSpec.name ColumnSpec.type ColumnSpec.label
         ColumnSpec.mandatory ColumnSpec.maxLength
         ColumnSpec.referenceTable ColumnSpec.choices
         ColumnSpec.defaultValue mapi_from join columnTypeImport app].
    rewrite ?app_nil_l. merge_literals. reflexivity.
  - intros wsId code tableName primary.
    rewrite workspace_step_blocks.
    unfold list_block, ws_listId, ws_viewId.
    cbv zeta. cbn [WorkspaceTable.tableName WorkspaceTable.listColumns
                   List.length seq combine map join].
    rewrite ?app_nil_l. find_end.
Qed.

(** ** The identifier normalizer on compound seeds *)

(** Normalization works code unit by code unit: the key has the length of
    the seed, the key of a concatenation is the concatenation of the keys,
    and a key made from an already normalized parent is the key of the raw
    seeds joined the same way. *)
Theorem idKey_compositional (a b : jsstring) :
  List.length (idKey a) = List.length a
  /\ idKey (a ++ b) = idKey a ++ idKey b
  /\ idKey (idKey a ++ js "_" ++ b) = idKey (a ++ js "_" ++ b)
  /\ idKey (idKey a ++ js "_" ++ idKey b) = idKey a ++ js "_" ++ idKey b.
Proof.
  split; [apply idKey_length|]. split; [apply idKey_app|].
  split; [apply idKey_child|].
  rewrite !idKey_app, !idKey_idem. reflexivity.
Qed.

(** Seeds that differ only in code units outside [A-Za-z0-9_] share their
    key: each such code unit becomes the same underscore. *)
Theorem idKey_collision (a b : jsstring) (c d : codeunit) :
  isWordChar c = false -> isWordChar d = false ->
  idKey (a ++ c :: b) = idKey (a ++ d :: b)
  /\ idKey (a ++ c :: b) = idKey a ++ js "_" ++ idKey b.
Proof.
  intros Hc Hd.
  assert (Hone : forall x, isWordChar x = false ->
                           idKey (a ++ x :: b) = idKey a ++ js "_" ++ idKey b).
  { intros x Hx. rewrite idKey_app. f_equal.
    unfold idKey, toLowerCase, replaceNonWord. cbn [map]. now rewrite Hx. }
  split; [now rewrite (Hone c Hc), (Hone d Hd) | exact (Hone c Hc)].
Qed.

Lemma idKey_collision_witness :
  isWordChar 32%N = false /\ isWordChar 45%N = false
  /\ idKey (js "Asset Tracker") = idKey (js "Asset-Tracker").
Proof.
  split; [reflexivity|]. split; [reflexivity|].
  exact (proj1 (idKey_collision (js "Asset") (js "Tracker") 32%N 45%N
                  eq_refl eq_refl)).
Defined.

(** ** The guided prompt *)

Section InOrder.

Lemma strip_prefix_sound (p s rest : jsstring) :
  strip_prefix p s = Some rest -> s = p ++ rest.
Proof.
  revert s. induction p as [|c p IH]; intros [|d s]; cbn [strip_prefix app];
    try discriminate; try (now intros [= ->]).
  destruct (N.eqb_spec c d) as [-> | _]; [|discriminate].
  intros Hs. now rewrite (IH _ Hs).
Qed.

Lemma after_first_sound (chunk text rest : jsstring) :
  after_first chunk text = Some rest ->
  exists pre, text = pre ++ chunk ++ rest.
Proof.
  induction text as [|x text IH]; cbn [after_first].
  - destruct (strip_prefix chunk []) as [r|] eqn:E; [|discriminate].
    intros [= ->]. exists []. exact (strip_prefix_sound _ _ _ E).
  - destruct (strip_prefix chunk (x :: text)) as [r|] eqn:E.
    + intros [= ->]. exists []. exact (strip_prefix_sound _ _ _ E).
    + intros Hr. destruct (IH Hr) as [pre ->]. exists (x :: pre). reflexivity.
Qed.

Lemma in_order_b_sound (chunks : list jsstring) (text : jsstring) :
  in_order_b chunks text = true -> in_order chunks text.
Proof.
  revert text. induction chunks as [|c chunks IH]; intros text;
    cbn [in_order_b in_order]; [trivial|].
  destruct (after_first c text) as [post|] eqn:E; [|discriminate].
  intros Hrest. destruct (after_first_sound _ _ _ E) as [pre ->].
  exists pre, post. split; [reflexivity | now apply IH].
Qed.

Lemma in_order_app_r (chunks : list jsstring) (front text : jsstring) :
  in_order chunks text -> in_order chunks (front ++ text).
Proof.
  destruct chunks as [|c chunks]; cbn [in_order]; [trivial|].
  intros (pre & post & -> & Hrest). exists (front ++ pre), post.
  split; [now rewrite <- app_assoc | exact Hrest].
Qed.

End InOrder.

(** The prompt answers with one message of role [user].  Its text is the
    sentence naming the application and the scope in double quotes, then
    the description after one space when one is given and not empty, then
    a checklist that is the same for every request and names the tools in
    the order: init, table, role, ACL, business rule, flow, menu,
    workspace, build, install. *)
Theorem new_app_prompt_shape (w : World) (args : PromptArgs) :
  exists text,
    run w (new_servicenow_app args)
    = [{| role := js "user"; message_text := text |}]
    /\ text
       = js "Create a new ServiceNow application called " ++ [34%N]
         ++ prompt_appName args ++ [34%N] ++ js " with scope " ++ [34%N]
         ++ prompt_scopeName args ++ [34%N] ++ js "."
         ++ opt_chunk (prompt_description args) (fun d => js " " ++ d)
         ++ new_app_checklist
    /\ in_order
         [js "`snc_init`"; js "`snc_generate_table`";
          js "`snc_generate_role`"; js "`snc_generate_acl`";
          js "`snc_generate_business_rule`"; js "`snc_generate_flow`";
          js "`snc_generate_app_menu`"; js "`snc_generate_workspace`";
          js "`snc_build`"; js "`snc_install`"]
         text.
Proof.
  unfold new_servicenow_app. cbn [run]. eexists.
  split; [reflexivity|]. split; [reflexivity|].
  rewrite !app_assoc. apply in_order_app_r.
  apply in_order_b_sound. vm_compute. reflexivity.
Qed.

(** ** The exported name of a role *)

Section LastSegment.

Lemma lastSegment_from_plain (acc s : jsstring) :
  forallb (fun x => negb (x =? 46)%N) s = true ->
  lastSegment_from acc s = acc ++ s.
Proof.
  revert acc. induction s as [|x s IH]; intros acc Hs;
    cbn [lastSegment_from].
  - now rewrite app_nil_r.
  - cbn [forallb] in Hs. apply andb_prop in Hs. destruct Hs as [Hx Hs].
    apply negb_true_iff in Hx. rewrite Hx, (IH _ Hs), <- app_assoc.
    reflexivity.
Qed.

Lemma lastSegment_from_dot (acc a b : jsstring) :
  lastSegment_from acc (a ++ js "." ++ b) = lastSegment_from [] b.
Proof.
  revert acc. induction a as [|x a IH]; intros acc.
  - reflexivity.
  - cbn [app lastSegment_from]. destruct (x =? 46)%N; apply IH.
Qed.

End LastSegment.

(** Without an [exportName], a role whose name has a non-empty last dot
    segment is exported under that segment, normalized; whatever stands
    before the last full stop (the scope) plays no part. *)
Theorem role_default_export_name (scope description : jsstring)
    (c : codeunit) (segment : jsstring) :
  forallb (fun x => negb (x =? 46)%N) (c :: segment) = true ->
  let req :=
    {| RoleRequest.name := scope ++ js "." ++ c :: segment;
       RoleRequest.description := description;
       RoleRequest.exportName := None |} in
  role_varName req = idKey (c :: segment)
  /\ starts_with
       (js "import { Role } from '@servicenow/sdk/core'" ++ LF ++ LF
        ++ js "export const " ++ idKey (c :: segment) ++ js " = Role({" ++ LF)
       (snc_generate_role_code req).
Proof.
  intros Hseg req.
  assert (Hname : role_varName req = idKey (c :: segment)).
  { unfold role_varName, req, lastSegment.
    cbn [RoleRequest.name RoleRequest.exportName opt_or_else].
    rewrite lastSegment_from_dot, (lastSegment_from_plain _ _ Hseg).
    reflexivity. }
  split; [exact Hname|].
  rewrite <- Hname. apply role_export_name.
Qed.

Lemma role_default_export_name_witness :
  forallb (fun x => negb (x =? 46)%N) (js "asset_manager") = true
  /\ role_varName
       {| RoleRequest.name := js "x_myorg.asset_manager";
          RoleRequest.description := js "Manages assets";
          RoleRequest.exportName := None |}
     = js "asset_manager".
Proof.
  split; [reflexivity|].
  exact (proj1 (role_default_export_name (js "x_myorg") (js "Manages assets")
                  97%N (js "sset_manager") eq_refl)).
Defined.

(** A role name that ends with a full stop has an empty last segment, so
    the whole name is normalized instead and its full stops become
    underscores; an empty [exportName] counts as none. *)
Theorem role_name_trailing_dot (scope description : jsstring) :
  let named e :=
    {| RoleRequest.name := scope ++ js ".";
       RoleRequest.description := description;
       RoleRequest.exportName := e |} in
  role_varName (named None) = idKey scope ++ js "_"
  /\ role_varName (named (Some [])) = role_varName (named None).
Proof.
  cbv zeta.
  assert (Hlast : lastSegment (scope ++ js ".") = [])
    by exact (lastSegment_from_dot [] scope []).
  unfold role_varName.
  cbn [RoleRequest.name RoleRequest.exportName opt_or_else or_else truthy].
  rewrite Hlast. cbn [or_else truthy]. rewrite idKey_app.
  split; reflexivity.
Qed.

(** * The generated documents, spelled out *)

Section Spelled.

Lemma flow_action_block_spelled (name table : jsstring)
    (act : ActionSpec.t) :
  flow_action_block (idKey name) table act = action_block name table act.
Proof.
  unfold flow_action_block, flow_action_step, action_block, flow_actId,
         action_key.
  cbv zeta. rewrite idKey_child.
  destruct act as [[] config];
    cbn [ActionSpec.type ActionSpec.config ActionType_string];
    rewrite ?flow_values_append;
    rewrite ?(concat_map_filter
                (fun kv => negb (JS.eqb (fst kv) (js "table"))) value_line);
    rewrite ?app_nil_l, <- ?app_assoc; reflexivity.
Qed.

Lemma flow_code_spelled (req : FlowRequest.t) :
  snc_generate_flow_code req = flow_document req.
Proof.
  unfold snc_generate_flow_code, flow_document, flow_header, flow_footer.
  cbv zeta. rewrite append_if_app.
  rewrite (fold_left_append _ _
             (flow_action_step_append (idKey (FlowRequest.name req))
                                      (FlowRequest.table req))).
  rewrite (map_ext _ _ (flow_action_block_spelled (FlowRequest.name req)
                                                  (FlowRequest.table req))).
  rewrite (idKey_suffix _ "_trigger" eq_refl).
  merge_literals. reflexivity.
Qed.

Lemma role_import_spelled (r p : option jsstring) :
  append_role_import r p [] = role_import_line r p.
Proof. destruct r as [[|c r]|], p as [[|d p]|]; reflexivity. Qed.

Lemma acl_step_spelled (table : jsstring) (roleName : option jsstring)
    (op : Operation) :
  acl_step table roleName [] op = acl_block table roleName op.
Proof.
  unfold acl_step, acl_block, acl_aclId. cbv zeta.
  rewrite append_if_app, ?app_nil_l, <- ?app_assoc. reflexivity.
Qed.

Lemma acl_code_spelled (req : AclRequest.t) :
  snc_generate_acl_code req = acl_document req.
Proof.
  destruct req as [table operations roleName roleImportPath].
  rewrite acl_code_blocks. unfold acl_document.
  cbn [AclRequest.table AclRequest.operations AclRequest.roleName
       AclRequest.roleImportPath].
  rewrite role_import_spelled.
  rewrite (map_ext _ _ (acl_step_spelled table roleName)). reflexivity.
Qed.

Lemma business_rule_code_spelled (req : BusinessRuleRequest.t) :
  snc_generate_business_rule_code req = business_rule_document req.
Proof.
  unfold snc_generate_business_rule_code, business_rule_document,
         rule_function_name.
  cbv zeta. rewrite append_if_app.
  destruct (BusinessRuleRequest.scriptFunctionName req) as [[|c f]|];
    cbn [opt_or_else or_else truthy];
    rewrite <- ?app_assoc; reflexivity.
Qed.

Lemma role_varName_spelled (req : RoleRequest.t) :
  role_varName req = role_export req.
Proof.
  unfold role_varName, role_export.
  destruct (RoleRequest.exportName req) as [[|c e]|];
    cbn [opt_or_else or_else truthy];
    destruct (lastSegment (RoleRequest.name req)); reflexivity.
Qed.

Lemma role_code_spelled (req : RoleRequest.t) :
  snc_generate_role_code req = role_document req.
Proof.
  unfold snc_generate_role_code, role_document. cbv zeta.
  rewrite role_varName_spelled, <- ?app_assoc. reflexivity.
Qed.

Lemma workspace_code_spelled (req : WorkspaceRequest.t) :
  snc_generate_workspace_code req = workspace_document req.
Proof.
  unfold snc_generate_workspace_code, workspace_document,
         master_config_block.
  cbv zeta.
  rewrite (fold_left_append _ _
             (workspace_step_blocks (idKey (WorkspaceRequest.title req)))).
  rewrite (map_ext _ (workspace_table_blocks (WorkspaceRequest.title req))).
  - rewrite <- ?app_assoc. reflexivity.
  - intros tbl.
    unfold aw_table_block, ui_view_block, list_block, workspace_table_blocks,
           ws_tblId, ws_viewId, ws_listId.
    cbv zeta. rewrite <- ?app_assoc. reflexivity.
Qed.

Context {number : Type} `{JsNumber number}.

Lemma menu_step_spelled (title : jsstring) (mdl : MenuModule.t number) :
  menu_step (idKey title) [] mdl = menu_record title mdl.
Proof.
  unfold menu_step, menu_modId, menu_record. cbv zeta.
  rewrite idKey_child, ?app_nil_l, <- ?app_assoc. reflexivity.
Qed.

Lemma menu_code_spelled (req : AppMenuRequest.t number) :
  snc_generate_app_menu_code req = menu_document req.
Proof.
  unfold snc_generate_app_menu_code, menu_document. cbv zeta.
  rewrite append_if_app, append_role_import_app, role_import_spelled.
  rewrite (fold_left_append _ _
             (menu_step_append (idKey (AppMenuRequest.title req)))).
  rewrite (map_ext _ _ (menu_step_spelled (AppMenuRequest.title req))).
  rewrite <- ?app_assoc. reflexivity.
Qed.

Lemma table_code_spelled (req : TableRequest.t number) :
  snc_generate_table_code req = table_document req.
Proof.
  unfold snc_generate_table_code, table_document, table_imports,
         table_varName.
  cbv zeta. rewrite append_if_app, <- ?app_assoc. reflexivity.
Qed.

End Spelled.

(** Claim C7.  The document of the flow generator is the header (the
    imports, the flow record and the trigger, spelled out in [flow_header],
    with no action in it), then exactly one block for each action of the
    request, in the order of the input sequence, then the two closing
    lines.  The block of an action is the single call of [wfa.action]
    spelled out in [action_block] for the action's own type, key and
    configuration.  So a request with [k] actions has exactly [k] action
    blocks, whatever the mix of their types. *)
Theorem flow_one_block_per_action (req : FlowRequest.t) :
  let name := FlowRequest.name req in
  let table := FlowRequest.table req in
  let actions := FlowRequest.actions req in
  let blocks := map (action_block name table) actions in
  snc_generate_flow_code req
  = flow_header name (FlowRequest.description req)
                (FlowRequest.triggerType req) table
                (FlowRequest.condition req)
    ++ List.concat blocks ++ flow_footer
  /\ List.length blocks = List.length actions
  /\ Forall2
       (fun act block =>
          block = action_block name table act
          /\ is_block_of (idKey name) act block)
       actions blocks.
Proof.
  cbv zeta. split; [exact (flow_code_spelled req)|].
  split; [apply length_map|].
  apply Forall2_map_image. intros act. split; [reflexivity|].
  rewrite <- flow_action_block_spelled. apply flow_action_block_shape.
Qed.

(** Claim C4, as the code has it.  The documents of the generators are the
    texts spelled out above, in which every [$id] key, and the exported
    name of the flow and of the menu, is the identifier normalizer applied
    to a seed: the request's name or title, or a parent seed and a child
    seed joined by an underscore (with the fixed child seeds [trigger],
    [view] and [list] and the fixed parent [ws]); such a key is made of
    [a-z0-9_] only.  The role generator exports the caller's [exportName]
    as it is when it is given and not empty, and otherwise the normalized
    last dot segment of the name, or the normalized whole name when that
    segment is empty.  The table generator exports [tableName] with every
    full stop replaced by an underscore and nothing else changed, and its
    document has no [$id] key; normalizing the exported name gives the
    normalized [tableName]. *)
Theorem generated_keys :
  (forall req : FlowRequest.t,
      snc_generate_flow_code req = flow_document req)
  /\ (forall req : BusinessRuleRequest.t,
        snc_generate_business_rule_code req = business_rule_document req)
  /\ (forall req : AclRequest.t,
        snc_generate_acl_code req = acl_document req)
  /\ (forall (number : Type) (JN : JsNumber number)
             (req : AppMenuRequest.t number),
        snc_generate_app_menu_code req = menu_document req)
  /\ (forall req : WorkspaceRequest.t,
        snc_generate_workspace_code req = workspace_document req)
  /\ (forall req : RoleRequest.t,
        snc_generate_role_code req = role_document req
        /\ role_varName req = role_export req)
  /\ (forall (number : Type) (JN : JsNumber number)
             (req : TableRequest.t number),
        snc_generate_table_code req = table_document req
        /\ table_varName (TableRequest.tableName req)
           = replaceDots (TableRequest.tableName req)
        /\ idKey (table_varName (TableRequest.tableName req))
           = idKey (TableRequest.tableName req))
  /\ (forall seed : jsstring, forallb isKeyChar (idKey seed) = true)
  /\ (forall (name : jsstring) (act : ActionSpec.t)
             (tbl : WorkspaceTable.t),
        flow_actId (idKey name) act
        = action_key name (ActionSpec.type act)
        /\ ws_tblId tbl = idKey (js "ws_" ++ WorkspaceTable.tableName tbl)
        /\ ws_viewId tbl = idKey (WorkspaceTable.tableName tbl ++ js "_view")
        /\ ws_listId tbl
           = idKey (WorkspaceTable.tableName tbl ++ js "_list")).
Proof.
  split; [exact flow_code_spelled|].
  split; [exact business_rule_code_spelled|].
  split; [exact acl_code_spelled|].
  split; [intros number JN req; apply menu_code_spelled|].
  split; [exact workspace_code_spelled|].
  split; [intros req; split;
          [apply role_code_spelled | apply role_varName_spelled]|].
  split.
  { intros number JN req. split; [apply table_code_spelled|].
    split; [reflexivity | apply idKey_replaceDots]. }
  split; [exact idKey_keychars|].
  intros name act tbl.
  split; [apply idKey_child | repeat split].
Qed.

(** Claim C6, as the code has it.  Whether an optional field is emitted
    follows its truthiness, and for some fields another field, not its mere
    presence.  In a column, [mandatory] gives a property exactly when it is
    [true], [maxLength] exactly when it is given and truthy as a number
    (for an integer: not zero), [defaultValue] exactly when it is given
    (empty or not), [referenceTable] exactly when the type is [reference]
    and the name is not empty, [choices] exactly when the type is [choice]
    and the mapping is given; the properties stand in that order after the
    label.  The table's [displayColumn] and the [condition] of a flow or of
    a business rule give their line exactly when they are given and not
    empty.  In the ACL and menu documents the [roles] lines are there
    exactly when [roleName] is given and not empty, and the import of the
    role exactly when both [roleName] and [roleImportPath] are given and
    not empty.  The [scriptFunctionName] of a business rule and the
    [exportName] of a role are used as they are exactly when they are given
    and not empty; otherwise a derived name stands in their place.  A field
    that gives nothing leaves nothing in the document: the text around its
    place is the same. *)
Theorem optional_fields_by_truthiness :
  (forall (number : Type) (JN : JsNumber number)
          (col : ColumnSpec.t number) (indent : jsstring),
      columnProps col indent
      = [js "label: '" ++ ColumnSpec.label col ++ js "'"]
        ++ match ColumnSpec.mandatory col with
           | Some true => [js "mandatory: true"]
           | _ => []
           end
        ++ match ColumnSpec.maxLength col with
           | Some n =>
               if numberToBoolean n
               then [js "maxLength: " ++ numberToString n]
               else []
           | None => []
           end
        ++ match ColumnSpec.defaultValue col with
           | Some d => [js "default: '" ++ d ++ js "'"]
           | None => []
           end
        ++ match ColumnSpec.type col, ColumnSpec.referenceTable col with
           | col_reference, Some r =>
               if truthy r then [js "referenceTable: '" ++ r ++ js "'"]
               else []
           | _, _ => []
           end
        ++ match ColumnSpec.type col, ColumnSpec.choices col with
           | col_choice, Some choices =>
               [js "choices: {" ++ LF
                ++ join (js "," ++ LF) (choiceEntries indent choices)
                ++ js "," ++ LF ++ indent ++ js "        }"]
           | _, _ => []
           end
      /\ generateColumnCode col indent
         = indent ++ js "        " ++ ColumnSpec.name col ++ js ": "
           ++ columnTypeImport (ColumnSpec.type col) ++ js "({" ++ LF
           ++ indent ++ js "            "
           ++ join (js "," ++ LF ++ indent ++ js "            ")
                   (columnProps col indent)
           ++ js "," ++ LF ++ indent ++ js "        })")
  /\ (forall n : SafeInteger,
        numberToBoolean n = negb (safe_value n =? 0)%Z
        /\ numberToString n
           = js (NilEmpty.string_of_int (Z.to_int (safe_value n))))
  /\ (forall chunk : jsstring -> jsstring,
        opt_chunk None chunk = []
        /\ opt_chunk (Some []) chunk = []
        /\ forall c v, opt_chunk (Some (c :: v)) chunk = chunk (c :: v))
  /\ (forall (number : Type) (JN : JsNumber number)
             (tableName label : jsstring)
             (columns : list (ColumnSpec.t number)),
        exists pre post,
          forall displayColumn : option jsstring,
            snc_generate_table_code
              {| TableRequest.tableName := tableName;
                 TableRequest.label := label;
                 TableRequest.columns := columns;
                 TableRequest.displayColumn := displayColumn |}
            = pre
              ++ opt_chunk displayColumn
                   (fun d => js "    display: '" ++ d ++ js "'," ++ LF)
              ++ post)
  /\ (forall (name description : jsstring) (triggerType : TriggerType)
             (table : jsstring) (actions : list ActionSpec.t),
        exists pre post,
          forall condition : option jsstring,
            snc_generate_flow_code
              {| FlowRequest.name := name;
                 FlowRequest.description := description;
                 FlowRequest.triggerType := triggerType;
                 FlowRequest.table := table;
                 FlowRequest.condition := condition;
                 FlowRequest.actions := actions |}
            = pre
              ++ opt_chunk condition
                   (fun c =>
                      js "            condition: '" ++ c ++ js "'," ++ LF)
              ++ post)
  /\ (forall (name table : jsstring) (when : When)
             (actions : list RuleAction) (scriptBody : jsstring)
             (scriptFunctionName : option jsstring),
        exists pre post,
          forall condition : option jsstring,
            snc_generate_business_rule_code
              {| BusinessRuleRequest.name := name;
                 BusinessRuleRequest.table := table;
                 BusinessRuleRequest.when := when;
                 BusinessRuleRequest.actions := actions;
                 BusinessRuleRequest.condition := condition;
                 BusinessRuleRequest.scriptBody := scriptBody;
                 BusinessRuleRequest.scriptFunctionName :=
                   scriptFunctionName |}
            = pre
              ++ opt_chunk condition
                   (fun c => js "    filter_condition: '" ++ c ++ js "',"
                             ++ LF)
              ++ post)
  /\ (forall req : AclRequest.t,
        snc_generate_acl_code req
        = js "import { Acl } from '@servicenow/sdk/core'" ++ LF
          ++ role_import_line (AclRequest.roleName req)
                              (AclRequest.roleImportPath req)
          ++ LF
          ++ List.concat
               (map (acl_block (AclRequest.table req)
                               (AclRequest.roleName req))
                    (AclRequest.operations req)))
  /\ (forall (number : Type) (JN : JsNumber number)
             (req : AppMenuRequest.t number),
        snc_generate_app_menu_code req = menu_document req)
  /\ (forall (roleName roleImportPath : option jsstring)
             (c d : codeunit) (r p : jsstring),
        role_import_line (Some (c :: r)) (Some (d :: p))
        = js "import { " ++ (c :: r) ++ js " } from '" ++ (d :: p)
          ++ js "'" ++ LF
        /\ role_import_line None roleImportPath = []
        /\ role_import_line (Some []) roleImportPath = []
        /\ role_import_line roleName None = []
        /\ role_import_line roleName (Some []) = [])
  /\ (forall req : BusinessRuleRequest.t,
        snc_generate_business_rule_code req = business_rule_document req)
  /\ (forall req : RoleRequest.t,
        snc_generate_role_code req = role_document req).
Proof.
  split.
  { intros number JN col indent.
    split; [apply columnProps_optional | reflexivity]. }
  split; [intros n; split; reflexivity|].
  split; [intros chunk; repeat split|].
  split; [intros number JN; apply displayColumn_hole|].
  split; [apply flow_condition_hole|].
  split; [apply rule_condition_hole|].
  split; [exact acl_code_spelled|].
  split; [intros number JN req; apply menu_code_spelled|].
  split.
  { intros roleName roleImportPath c d r p.
    split; [reflexivity|]. split; [reflexivity|].
    split; [destruct roleImportPath as [[|x y]|]; reflexivity|].
    split; [destruct roleName as [[|x y]|]; reflexivity|].
    destruct roleName as [[|x y]|]; reflexivity. }
  split; [exact business_rule_code_spelled | exact role_code_spelled].
Qed.

(** The document of the ACL generator is the import of [Acl], the import of
    the role when both the role name and its path are given and not empty,
    a blank line, and then exactly one [Acl] block per requested operation,
    in the order of the request, each spelled out in [acl_block] with the
    key and the operation of its own entry.  With no operation there is no
    block at all. *)
Theorem acl_one_block_per_operation (table : jsstring)
    (roleName roleImportPath : option jsstring)
    (operations : list Operation) :
  let blocks := map (acl_block table roleName) operations in
  snc_generate_acl_code
    {| AclRequest.table := table;
       AclRequest.operations := operations;
       AclRequest.roleName := roleName;
       AclRequest.roleImportPath := roleImportPath |}
  = js "import { Acl } from '@servicenow/sdk/core'" ++ LF
    ++ match roleName, roleImportPath with
       | Some (c :: r), Some (d :: p) =>
           js "import { " ++ (c :: r) ++ js " } from '" ++ (d :: p)
           ++ js "'" ++ LF
       | _, _ => []
       end
    ++ LF ++ List.concat blocks
  /\ List.length blocks = List.length operations
  /\ Forall2 (fun op block => block = acl_block table roleName op)
             operations blocks.
Proof.
  cbv zeta. split; [|split].
  - exact (acl_code_spelled
             {| AclRequest.table := table;
                AclRequest.operations := operations;
                AclRequest.roleName := roleName;
                AclRequest.roleImportPath := roleImportPath |}).
  - apply length_map.
  - apply Forall2_map_image. reflexivity.
Qed.

(** The subprocess [runSdk] spawns sees [FORCE_COLOR] as [0], whatever the
    server's own environment says, and every other variable as the server
    has it. *)
Theorem runSdk_env_passthrough (process : Process) (w : World)
    (command : jsstring) (dir : option jsstring) (k : jsstring) :
  k <> js "FORCE_COLOR" ->
  map (fun o => (env o (js "FORCE_COLOR"), env o k))
      (spawned_options w (runSdk process command dir))
  = [(Some (js "0"), process_env process k)].
Proof.
  intros Hk. unfold runSdk. cbn [spawned_options].
  destruct (w command _) as [out | error];
    cbn [spawned_options map env]; unfold env_set;
    rewrite eqb_refl, (eqb_neq _ _ Hk); reflexivity.
Qed.

Lemma runSdk_env_passthrough_witness :
  js "PATH" <> js "FORCE_COLOR"
  /\ map (fun o => (env o (js "FORCE_COLOR"), env o (js "PATH")))
         (spawned_options
            (fun _ _ => Resolved {| stdout := js "ok"; stderr := [] |})
            (runSdk bare_process (js "npx now-sdk build") None))
     = [(Some (js "0"), process_env bare_process (js "PATH"))].
Proof.
  assert (Hk : js "PATH" <> js "FORCE_COLOR")
    by (intros E; vm_compute in E; discriminate E).
  split; [exact Hk|].
  apply (runSdk_env_passthrough bare_process
           (fun _ _ => Resolved {| stdout := js "ok"; stderr := [] |})
           (js "npx now-sdk build") None (js "PATH") Hk).
Defined.

(** A column with a maximal length on the safe integers: 255 is emitted in
    decimal, 0 is not emitted. *)
Example maxLength_on_safe_integers :
  columnProps
    {| ColumnSpec.name := js "title";
       ColumnSpec.type := col_string;
       ColumnSpec.label := js "Title";
       ColumnSpec.mandatory := None;
       ColumnSpec.maxLength :=
         Some {| safe_value := 255; safe_bound := eq_refl |};
       ColumnSpec.referenceTable := None;
       ColumnSpec.choices := None;
       ColumnSpec.defaultValue := None |} []
  = [js "label: 'Title'"; js "maxLength: 255"]
  /\ columnProps
       {| ColumnSpec.name := js "title";
          ColumnSpec.type := col_string;
          ColumnSpec.label := js "Title";
          ColumnSpec.mandatory := None;
          ColumnSpec.maxLength :=
            Some {| safe_value := 0; safe_bound := eq_refl |};
          ColumnSpec.referenceTable := None;
          ColumnSpec.choices := None;
          ColumnSpec.defaultValue := None |} []
     = [js "label: 'Title'"].
Proof. split; vm_compute; reflexivity. Qed.
